(** * isar-exr: the authenticated GraphQL query client

    A shallow embedding of [src/isar_exr/api/graphql_client.py] and the
    properties of its reauthentication retry.

    The Python class [GraphqlClient] talks to three collaborators outside
    its module: [get_access_token] of [isar_exr.api.authentication] (the
    credential provider), and [gql] (the parser) and [Client.execute] (the
    transport) of the gql library.  They are parameters of the
    development, as is [settings.ROBOT_API_URL]; everything the class
    itself does -- exception dispatch, the [finally] clause, the recursion
    of [query], its logging -- is modelled as written. *)

From stdpp Require Import gmap strings list.

#[local] Set Warnings "-register-all".
#[local] Open Scope string_scope.

(** ** Python values *)

(** The values that travel through [query]: JSON-like data and [None]. *)
Inductive PyValue : Type :=
| PyNone
| PyBool (b : bool)
| PyInt (z : Z)
| PyStr (s : string)
| PyList (l : list PyValue)
| PyDict (d : gmap string PyValue).

(** [Dict[str, Any]] *)
Abbreviation Dict := (gmap string PyValue).

(** ** Exceptions *)

(** The exception classes that [query] distinguishes.  [Exception] stands
    for an instance of [Exception] that belongs to none of the five named
    classes, [BaseException] for one that does not derive from [Exception]
    at all ([KeyboardInterrupt], [SystemExit]). *)
Inductive ExnClass : Type :=
| GraphQLError
| TransportProtocolError
| TransportQueryError
| TransportClosed
| TransportServerError
| Exception
| BaseException.

#[global] Instance ExnClass_eq_dec : EqDecision ExnClass.
Proof. solve_decision. Defined.

(** An exception object: its class, [str(e)], and the two attributes the
    handlers format into log messages ([e.message], [e.errors]). *)
Record Exn : Type := mkExn {
  exn_class : ExnClass;
  str : string;
  message : string;
  errors : string
}.

(** [isinstance(e, cls)], which is what an [except cls] clause tests. *)
Definition isinstance (e : Exn) (cls : ExnClass) : bool :=
  match cls with
  | BaseException => true
  | Exception => negb (bool_decide (exn_class e = BaseException))
  | _ => bool_decide (exn_class e = cls)
  end.

(** ** Logging *)

Inductive Level : Type := DEBUG | INFO | WARNING | ERROR | CRITICAL.

(** Severity error or above. *)
Definition severe (lvl : Level) : bool :=
  match lvl with
  | ERROR | CRITICAL => true
  | _ => false
  end.

(** The newline of the f-string in [_initialize_client]. *)
Definition nl : string :=
  String (Ascii.Ascii false true false true false false false false) "".

(** ** The session *)

Record AIOHTTPTransport : Type := mkTransport {
  url : string;
  headers : gmap string string
}.

Record Client : Type := mkClient {
  transport : AIOHTTPTransport;
  fetch_schema_from_transport : bool
}.

(** The attributes of a [GraphqlClient] instance.  [client] is absent
    until [_initialize_client] has assigned it. *)
Record GraphqlClient : Type := mkSelf {
  _reauthenticated : bool;
  client : option Client
}.

(** How a block of Python statements (or an expression) completes. *)
Inductive Completion (A : Type) : Type :=
| Normal (a : A)       (* a value; for a statement: control falls through *)
| Return (v : PyValue) (* a [return] statement was executed *)
| Raise (e : Exn)      (* an exception is propagating *)
| OutOfFuel.           (* the recursion bound of the model was reached *)

Arguments Normal {A} a.
Arguments Return {A} v.
Arguments Raise {A} e.
Arguments OutOfFuel {A}.

Section Client.

(** The outside world and the collaborators. *)
Variable World : Type.
Variable DocumentNode : Type.
Variable ROBOT_API_URL : string.
Variable get_access_token : World -> World * (Exn + string).
Variable gql : string -> Exn + DocumentNode.
Variable execute :
  Client -> DocumentNode -> Dict -> World -> World * (Exn + Dict).

(** What the program does that a caller or a test double can observe,
    in order. *)
Inductive Event : Type :=
| GetAccessToken                       (* a call of [get_access_token] *)
| NewClient (c : Client)               (* [self.client = Client(...)] *)
| Execute (c : Client) (document : DocumentNode) (parameters : Dict)
| Log (lvl : Level) (msg : string)     (* a record sent to the logger *)
| SetReauthenticated (b : bool).       (* [self._reauthenticated = b] *)

Record State : Type := mkState {
  self : GraphqlClient;
  world : World;
  trace : list Event
}.

(** *** The monad of statements: state, exceptions, early return *)

Definition M (A : Type) : Type := State -> State * Completion A.

Definition ret {A} (a : A) : M A := fun s => (s, Normal a).

Definition bind {A B} (m : M A) (k : A -> M B) : M B := fun s =>
  match m s with
  | (s1, Normal a) => k a s1
  | (s1, Return v) => (s1, Return v)
  | (s1, Raise e) => (s1, Raise e)
  | (s1, OutOfFuel) => (s1, OutOfFuel)
  end.

#[local] Notation "x <- m ;; k" := (bind m (fun x => k))
  (at level 100, m at next level, k at level 200, right associativity).
#[local] Notation "m ;;; k" := (bind m (fun _ => k))
  (at level 100, k at level 200, right associativity).

Definition skip : M unit := ret tt.
Definition return_ {A} (v : PyValue) : M A := fun s => (s, Return v).
Definition raise {A} (e : Exn) : M A := fun s => (s, Raise e).
Definition out_of_fuel {A} : M A := fun s => (s, OutOfFuel).

Definition emit (ev : Event) : M unit := fun s =>
  (mkState (self s) (world s) (trace s ++ [ev]), Normal tt).

(** [except] clauses are tried in order; the first whose class the
    exception is an instance of handles it. *)
Fixpoint find_handler {A} (e : Exn)
    (clauses : list (ExnClass * (Exn -> M A))) : option (M A) :=
  match clauses with
  | [] => None
  | (cls, h) :: rest =>
      if isinstance e cls then Some (h e) else find_handler e rest
  end.

(** [try: body / except ...: / finally: final].  An exception raised by
    a handler is not offered to the sibling clauses; [final] runs on
    every completion of the body or handler and, when it completes
    normally, leaves that completion in force. *)
Definition try_ {A} (body : M A)
    (clauses : list (ExnClass * (Exn -> M A))) (final : M unit) : M A :=
  fun s =>
    let '(s1, r1) := body s in
    let '(s2, r2) :=
      match r1 with
      | Raise e =>
          match find_handler e clauses with
          | Some h => h s1
          | None => (s1, Raise e)
          end
      | _ => (s1, r1)
      end in
    match r2 with
    | OutOfFuel => (s2, OutOfFuel)
    | _ =>
        match final s2 with
        | (s3, Normal _) => (s3, r2)
        | (s3, Return v) => (s3, Return v)
        | (s3, Raise e) => (s3, Raise e)
        | (s3, OutOfFuel) => (s3, OutOfFuel)
        end
    end.

(** A function call: [return v] yields [v], falling off the end of the
    body yields [None]. *)
Definition call (body : M unit) : M PyValue := fun s =>
  match body s with
  | (s1, Normal _) => (s1, Normal PyNone)
  | (s1, Return v) => (s1, Normal v)
  | (s1, Raise e) => (s1, Raise e)
  | (s1, OutOfFuel) => (s1, OutOfFuel)
  end.

(** *** Attribute access and the collaborators *)

Definition get_reauthenticated : M bool := fun s =>
  (s, Normal (_reauthenticated (self s))).

Definition set_reauthenticated (b : bool) : M unit := fun s =>
  (mkState (mkSelf b (client (self s))) (world s)
           (trace s ++ [SetReauthenticated b]), Normal tt).

Definition set_client (c : Client) : M unit := fun s =>
  (mkState (mkSelf (_reauthenticated (self s)) (Some c)) (world s)
           (trace s ++ [NewClient c]), Normal tt).

Definition AttributeError : Exn :=
  mkExn Exception "'GraphqlClient' object has no attribute 'client'" "" "".

(** [self.client]; a missing attribute is an [AttributeError]. *)
Definition get_client : M Client := fun s =>
  match client (self s) with
  | Some c => (s, Normal c)
  | None => (s, Raise AttributeError)
  end.

Definition logger_error (msg : string) : M unit := emit (Log ERROR msg).
Definition logger_critical (msg : string) : M unit :=
  emit (Log CRITICAL msg).

Definition of_sum {A} (r : Exn + A) : Completion A :=
  match r with
  | inl e => Raise e
  | inr a => Normal a
  end.

Definition call_get_access_token : M string := fun s =>
  let '(w, r) := get_access_token (world s) in
  (mkState (self s) w (trace s ++ [GetAccessToken]), of_sum r).

Definition call_gql (query_string : string) : M DocumentNode := fun s =>
  (s, of_sum (gql query_string)).

Definition call_execute (c : Client) (document : DocumentNode)
    (query_parameters : Dict) : M Dict := fun s =>
  let '(w, r) := execute c document query_parameters (world s) in
  (mkState (self s) w (trace s ++ [Execute c document query_parameters]),
   of_sum r).

(** *** The class *)

(** The client object that [_initialize_client] builds around a token. *)
Definition session (token : string) : Client :=
  mkClient
    (mkTransport ROBOT_API_URL {[ "authorization" := "Bearer " ++ token ]})
    true.

Definition _initialize_client : M unit :=
  token <- try_ call_get_access_token
             [ (Exception, fun e =>
                  logger_critical
                    ("CRITICAL - Error getting access token: " ++ nl
                       ++ str e) ;;;
                  raise e) ]
             skip ;;
  let auth_header : gmap string string :=
    {[ "authorization" := "Bearer " ++ token ]} in
  let transport := mkTransport ROBOT_API_URL auth_header in
  set_client (mkClient transport true).

Definition __init__ : M unit :=
  set_reauthenticated false ;;;
  _initialize_client.

(** The [try] block of [query]: one attempt at the request. *)
Definition attempt (query_string : string) (query_parameters : Dict)
    : M unit :=
  document <- call_gql query_string ;;
  c <- get_client ;;
  response <- call_execute c document query_parameters ;;
  return_ (PyDict response).

(** The body of [query]; [self_query] is the method itself, for the
    recursive call in the reauthentication branch. *)
Definition query_body (self_query : string -> Dict -> M PyValue)
    (query_string : string) (query_parameters : Dict) : M unit :=
  try_
    (attempt query_string query_parameters)
    [ (GraphQLError, fun e =>
         logger_error
           ("Something went wrong while sending the GraphQL query: "
              ++ message e) ;;;
         raise e);
      (TransportProtocolError, fun e =>
         reauthenticated <- get_reauthenticated ;;
         if reauthenticated then
           logger_error
             "Transport protocol error - Error in configuration of GraphQL client" ;;;
           raise e
         else
           (* The token might have expired, try again with a new token *)
           _initialize_client ;;;
           set_reauthenticated true ;;;
           _ <- self_query query_string query_parameters ;;
           skip);
      (TransportQueryError, fun e =>
         logger_error
           ("The Energy Robotics server returned an error: " ++ errors e) ;;;
         raise e);
      (TransportClosed, fun e =>
         logger_error "The connection to the GraphQL endpoint is closed" ;;;
         raise e);
      (TransportServerError, fun e =>
         logger_error ("Error in Energy Robotics server: " ++ str e) ;;;
         raise e);
      (Exception, fun e =>
         logger_error ("Unknown error in GraphQL client: " ++ str e) ;;;
         raise e) ]
    (set_reauthenticated false) ;;;
  return_ (PyDict ∅).

(** [GraphqlClient.query].  [fuel] bounds the depth of the recursion; a
    retry runs with the flag set and does not recurse, so two suffice
    ([query_fuel]). *)
Fixpoint query (fuel : nat) (query_string : string)
    (query_parameters : Dict) : M PyValue :=
  match fuel with
  | O => out_of_fuel
  | S fuel' => call (query_body (query fuel') query_string query_parameters)
  end.

(** [GraphqlClient()]: a fresh instance, then [__init__]. *)
Definition new (w : World) : State * Completion unit :=
  __init__ (mkState (mkSelf false None) w []).

(** What [_initialize_client] logs when the credential provider
    raises [e]: a critical record if an [except Exception] catches it. *)
Definition credential_log (e : Exn) : list Event :=
  if isinstance e Exception then
    [Log CRITICAL ("CRITICAL - Error getting access token: " ++ nl ++ str e)]
  else [].

(** What the [except] clauses of [query] log for an exception that they
    re-raise (for a transport-protocol error: when the flag is set). *)
Definition error_log (e : Exn) : list Event :=
  if isinstance e GraphQLError then
    [Log ERROR ("Something went wrong while sending the GraphQL query: "
                  ++ message e)]
  else if isinstance e TransportProtocolError then
    [Log ERROR
       "Transport protocol error - Error in configuration of GraphQL client"]
  else if isinstance e TransportQueryError then
    [Log ERROR ("The Energy Robotics server returned an error: "
                  ++ errors e)]
  else if isinstance e TransportClosed then
    [Log ERROR "The connection to the GraphQL endpoint is closed"]
  else if isinstance e TransportServerError then
    [Log ERROR ("Error in Energy Robotics server: " ++ str e)]
  else if isinstance e Exception then
    [Log ERROR ("Unknown error in GraphQL client: " ++ str e)]
  else [].

(** The state once the [finally] clause of [query] has run. *)
Definition cleaned (s : State) : State :=
  mkState (mkSelf false (client (self s))) (world s)
          (trace s ++ [SetReauthenticated false]).

(** The state in which the retry starts: the flag has been set. *)
Definition flagged (s : State) : State :=
  mkState (mkSelf true (client (self s))) (world s)
          (trace s ++ [SetReauthenticated true]).

(** [s] with further events recorded. *)
Definition record (evs : list Event) (s : State) : State :=
  mkState (self s) (world s) (trace s ++ evs).

(** The paths through a call of [query]: what the first attempt, the
    rebuild and the retry did, the state left behind and the completion
    of the call.  [query_paths] shows that every call, given fuel for one
    retry, follows one of them. *)
Inductive query_path (qs : string) (qp : Dict) (s : State)
    : State -> Completion PyValue -> Prop :=
| path_return s1 v :
    attempt qs qp s = (s1, Return v) ->
    query_path qs qp s (cleaned s1) (Normal v)
| path_reraise s1 e :
    attempt qs qp s = (s1, Raise e) ->
    isinstance e TransportProtocolError = false
      \/ _reauthenticated (self s) = true ->
    query_path qs qp s (cleaned (record (error_log e) s1)) (Raise e)
| path_rebuild_raise s1 e s2 e2 :
    attempt qs qp s = (s1, Raise e) ->
    exn_class e = TransportProtocolError ->
    _reauthenticated (self s) = false ->
    _initialize_client s1 = (s2, Raise e2) ->
    query_path qs qp s (cleaned s2) (Raise e2)
| path_retry_return s1 e s2 s3 v :
    attempt qs qp s = (s1, Raise e) ->
    exn_class e = TransportProtocolError ->
    _reauthenticated (self s) = false ->
    _initialize_client s1 = (s2, Normal tt) ->
    attempt qs qp (flagged s2) = (s3, Return v) ->
    query_path qs qp s (cleaned (cleaned s3)) (Normal (PyDict ∅))
| path_retry_raise s1 e s2 s3 e3 :
    attempt qs qp s = (s1, Raise e) ->
    exn_class e = TransportProtocolError ->
    _reauthenticated (self s) = false ->
    _initialize_client s1 = (s2, Normal tt) ->
    attempt qs qp (flagged s2) = (s3, Raise e3) ->
    query_path qs qp s (cleaned (cleaned (record (error_log e3) s3)))
               (Raise e3).

(** *** Reading a trace *)

(** The sessions built, in order. *)
Definition rebuilds (t : list Event) : list Client :=
  omap (fun ev => match ev with NewClient c => Some c | _ => None end) t.

(** The requests sent to the transport, in order. *)
Definition executions (t : list Event)
    : list (Client * DocumentNode * Dict) :=
  omap (fun ev =>
          match ev with Execute c d p => Some (c, d, p) | _ => None end) t.

(** How often the credential provider was asked for a token. *)
Definition token_fetches (t : list Event) : nat :=
  length (omap (fun ev =>
                  match ev with GetAccessToken => Some tt | _ => None end)
               t).

(** The values assigned to [self._reauthenticated], in order. *)
Definition flag_writes (t : list Event) : list bool :=
  omap (fun ev =>
          match ev with SetReauthenticated b => Some b | _ => None end) t.

(** The log records, in order. *)
Definition logs (t : list Event) : list (Level * string) :=
  omap (fun ev =>
          match ev with Log lvl msg => Some (lvl, msg) | _ => None end) t.

(** The states a client can be in between two calls of its user: the one
    a successful construction leaves, and the one any call of [query]
    leaves, whether it returned or raised. *)
Inductive in_service : State -> Prop :=
| constructed w s :
    new w = (s, Normal tt) ->
    in_service s
| queried n qs qp s :
    in_service s ->
    in_service (query (S (S n)) qs qp s).1.

End Client.

Arguments GetAccessToken {DocumentNode}.
Arguments NewClient {DocumentNode} c.
Arguments Execute {DocumentNode} c document parameters.
Arguments Log {DocumentNode} lvl msg.
Arguments SetReauthenticated {DocumentNode} b.
Arguments mkState {World DocumentNode} self world trace.
Arguments self {World DocumentNode} s.
Arguments world {World DocumentNode} s.
Arguments trace {World DocumentNode} s.
Arguments rebuilds {DocumentNode} t.
Arguments executions {DocumentNode} t.
Arguments token_fetches {DocumentNode} t.
Arguments flag_writes {DocumentNode} t.
Arguments logs {DocumentNode} t.
Arguments credential_log {DocumentNode} e.
Arguments error_log {DocumentNode} e.
Arguments cleaned {World DocumentNode} s.
Arguments flagged {World DocumentNode} s.
Arguments record {World DocumentNode} evs s.
Arguments isinstance : simpl never.

(** ** A scripted world

    A test double in the manner of a unit test's mock: the credential
    provider and the transport answer from two scripts, one entry per
    call.  The concrete scenarios at the end run on it. *)
Module Mock.

Record World : Type := mkWorld {
  tokens : list (Exn + string);
  replies : list (Exn + Dict)
}.

Definition exhausted : Exn := mkExn Exception "script exhausted" "" "".

Definition get_access_token (w : World) : World * (Exn + string) :=
  match tokens w with
  | [] => (w, inl exhausted)
  | r :: rest => (mkWorld rest (replies w), r)
  end.

(** Documents are the query text itself; the empty text does not parse. *)
Definition gql (query_string : string) : Exn + string :=
  if bool_decide (query_string = "") then
    inl (mkExn GraphQLError "Syntax Error: Unexpected <EOF>."
               "Syntax Error: Unexpected <EOF>." "")
  else inr query_string.

Definition execute (c : Client) (document : string) (parameters : Dict)
    (w : World) : World * (Exn + Dict) :=
  match replies w with
  | [] => (w, inl exhausted)
  | r :: rest => (mkWorld (tokens w) rest, r)
  end.

Definition ROBOT_API_URL : string := "https://robot.example/graphql".

Definition query :=
  query World string ROBOT_API_URL get_access_token gql execute.
Definition new := new World string ROBOT_API_URL get_access_token.

Definition session : string -> Client := session ROBOT_API_URL.
Definition attempt := attempt World string gql execute.

Definition protocol_error : Exn :=
  mkExn TransportProtocolError "Server did not return a GraphQL result" "" "".
Definition closed : Exn :=
  mkExn TransportClosed "Transport is not connected" "" "".
Definition denied : Exn := mkExn Exception "invalid_client" "" "".
Definition data : Dict := {[ "robot" := PyStr "exr-1" ]}.

(** A constructed client, its flag unset, in world [w]. *)
Definition ready (w : World) : State World string :=
  mkState (mkSelf false (Some (session "t0"))) w [].

Definition robots : string := "{ robot }".

(** The token has expired: the first request fails, a token is to be
    had, the second request is answered. *)
Definition expired : World :=
  mkWorld [inr "t1"] [inl protocol_error; inr data].

(** The token has expired and the credential provider refuses another. *)
Definition locked_out : World :=
  mkWorld [inl denied] [inl protocol_error; inr data].

(** The endpoint answers no request in the protocol, old token or new. *)
Definition misconfigured : World :=
  mkWorld [inr "t1"] [inl protocol_error; inl protocol_error].

(** The connection is closed. *)
Definition hung_up : World := mkWorld [] [inl closed].

(** Tokens that expire one after the other: every first request fails,
    every retry is answered. *)
Definition short_lived : World :=
  mkWorld [inr "t0"; inr "t1"; inr "t2"]
          [inl protocol_error; inr data; inl protocol_error; inr data].

End Mock.


(** * Properties *)

Section Properties.

#[local] Open Scope list_scope.

Variable World : Type.
Variable DocumentNode : Type.
Variable ROBOT_API_URL : string.
Variable get_access_token : World -> World * (Exn + string).
Variable gql : string -> Exn + DocumentNode.
Variable execute :
  Client -> DocumentNode -> Dict -> World -> World * (Exn + Dict).

#[local] Abbreviation State := (State World DocumentNode).
#[local] Abbreviation session := (session ROBOT_API_URL).
#[local] Abbreviation attempt := (attempt World DocumentNode gql execute).
#[local] Abbreviation _initialize_client :=
  (_initialize_client World DocumentNode ROBOT_API_URL get_access_token).
#[local] Abbreviation query_body :=
  (query_body World DocumentNode ROBOT_API_URL get_access_token gql execute).
#[local] Abbreviation query :=
  (query World DocumentNode ROBOT_API_URL get_access_token gql execute).
#[local] Abbreviation query_path :=
  (query_path World DocumentNode ROBOT_API_URL get_access_token gql execute).
#[local] Abbreviation new :=
  (new World DocumentNode ROBOT_API_URL get_access_token).
#[local] Abbreviation in_service :=
  (in_service World DocumentNode ROBOT_API_URL get_access_token gql execute).

(** ** One attempt *)

Lemma attempt_eq (qs : string) (qp : Dict) (s : State) :
  attempt qs qp s =
  match gql qs with
  | inl e => (s, Raise e)
  | inr document =>
      match client (self s) with
      | None => (s, Raise (AttributeError))
      | Some c =>
          let '(w, r) := execute c document qp (world s) in
          (mkState (self s) w (trace s ++ [Execute c document qp]),
           match r with
           | inl e => Raise e
           | inr response => Return (PyDict response)
           end)
      end
  end.
Proof.
  unfold attempt, bind, call_gql, get_client, call_execute, return_.
  destruct (gql qs) as [e|document]; simpl; [reflexivity|].
  destruct (client (self s)) as [c|]; [|reflexivity].
  destruct (execute c document qp (world s)) as [w [e|response]];
    reflexivity.
Qed.

Lemma initialize_eq (s : State) :
  _initialize_client s =
  let '(w, r) := get_access_token (world s) in
  match r with
  | inl e =>
      (mkState (self s) w (trace s ++ GetAccessToken :: credential_log e),
       Raise e)
  | inr token =>
      (mkState (mkSelf (_reauthenticated (self s)) (Some (session token))) w
               (trace s ++ [GetAccessToken; NewClient (session token)]),
       Normal tt)
  end.
Proof.
  unfold _initialize_client, bind, try_, call_get_access_token,
    credential_log, set_client, skip, ret.
  destruct (get_access_token (world s)) as [w [e|token]]; simpl.
  - destruct (isinstance e Exception); simpl.
    + unfold bind, logger_critical, emit, raise; simpl.
      rewrite <- app_assoc. reflexivity.
    + reflexivity.
  - rewrite <- app_assoc. reflexivity.
Qed.

(** ** One call of [query], branch by branch *)

Lemma isinstance_class (e : Exn) (cls : ExnClass) :
  cls <> Exception -> cls <> BaseException ->
  isinstance e cls = bool_decide (exn_class e = cls).
Proof. destruct cls; intros; try reflexivity; congruence. Qed.

(** The attempt returned. *)
Lemma query_return n qs qp s s1 v :
  attempt qs qp s = (s1, Return v) ->
  query (S n) qs qp s = (cleaned s1, Normal v).
Proof.
  intros H. simpl. unfold call, query_body, bind, try_.
  rewrite H. reflexivity.
Qed.

(** The attempt raised an exception that is re-raised: any exception but
    a transport-protocol error met with the flag unset. *)
Lemma query_reraise n qs qp s s1 e :
  attempt qs qp s = (s1, Raise e) ->
  isinstance e TransportProtocolError = false
    \/ _reauthenticated (self s1) = true ->
  query (S n) qs qp s = (cleaned (record (error_log e) s1), Raise e).
Proof.
  intros H Hre. simpl. unfold call, query_body, bind, try_.
  rewrite H. unfold error_log.
  destruct e as [cls st msg errs].
  destruct cls; unfold isinstance in *; simpl in *;
    try (unfold record; rewrite app_nil_r; destruct s1; reflexivity);
    try reflexivity.
  destruct Hre as [Hre|Hre]; [discriminate|].
  unfold get_reauthenticated. rewrite Hre. reflexivity.
Qed.

(** The attempt met a transport-protocol error with the flag unset: the
    session is rebuilt, and the rebuild can fail ... *)
Lemma query_rebuild_raise n qs qp s s1 e s2 e2 :
  attempt qs qp s = (s1, Raise e) ->
  exn_class e = TransportProtocolError ->
  _reauthenticated (self s1) = false ->
  _initialize_client s1 = (s2, Raise e2) ->
  query (S n) qs qp s = (cleaned s2, Raise e2).
Proof.
  intros H Hcls Hflag Hinit. simpl.
  unfold call, query_body, bind, try_.
  rewrite H. destruct e as [cls st msg errs]. simpl in Hcls. subst cls.
  unfold isinstance, get_reauthenticated. simpl.
  rewrite Hflag, Hinit. reflexivity.
Qed.

(** ... or succeed, and then the request is retried by a recursive call
    whose returned value goes nowhere. *)
Lemma query_retry n qs qp s s1 e s2 u s3 r3 :
  attempt qs qp s = (s1, Raise e) ->
  exn_class e = TransportProtocolError ->
  _reauthenticated (self s1) = false ->
  _initialize_client s1 = (s2, Normal u) ->
  query n qs qp (flagged s2) = (s3, r3) ->
  query (S n) qs qp s =
  match r3 with
  | Normal _ => (cleaned s3, Normal (PyDict ∅))
  | Return v => (cleaned s3, Normal v)
  | Raise e3 => (cleaned s3, Raise e3)
  | OutOfFuel => (s3, OutOfFuel)
  end.
Proof.
  intros H Hcls Hflag Hinit Hrec. simpl.
  unfold call, query_body, bind, try_.
  rewrite H. destruct e as [cls st msg errs]. simpl in Hcls. subst cls.
  unfold isinstance, get_reauthenticated. simpl.
  rewrite Hflag, Hinit. unfold set_reauthenticated.
  fold (flagged s2). rewrite Hrec.
  destruct r3; reflexivity.
Qed.

(** ** What an attempt and a rebuild leave behind *)

(** An attempt changes neither the flag nor the session; it sends at most
    one request and ends in a [return] of a dictionary or in an
    exception. *)
Lemma attempt_inv qs qp s s1 r :
  attempt qs qp s = (s1, r) ->
  self s1 = self s /\
  (exists evs, trace s1 = trace s ++ evs /\
     (evs = [] \/ exists c document, evs = [Execute c document qp])) /\
  ((exists response, r = Return (PyDict response)) \/ exists e, r = Raise e).
Proof.
  rewrite attempt_eq. intros H.
  destruct (gql qs) as [e|document].
  { inversion H; subst. repeat split; eauto.
    exists []. rewrite app_nil_r. auto. }
  destruct (client (self s)) as [c|].
  2: { inversion H; subst. repeat split; eauto.
       exists []. rewrite app_nil_r. auto. }
  destruct (execute c document qp (world s)) as [w x].
  inversion H; subst. simpl. split; [reflexivity|]. split.
  - exists [Execute c document qp]. eauto.
  - destruct x; eauto.
Qed.

Lemma initialize_inv s s2 r :
  _initialize_client s = (s2, r) ->
  (exists e, r = Raise e /\
     _reauthenticated (self s2) = _reauthenticated (self s) /\
     trace s2 = trace s ++ GetAccessToken :: credential_log e) \/
  (exists token, r = Normal tt /\
     _reauthenticated (self s2) = _reauthenticated (self s) /\
     trace s2 = trace s ++ [GetAccessToken; NewClient (session token)]).
Proof.
  rewrite initialize_eq.
  destruct (get_access_token (world s)) as [w [e|token]];
    intros H; inversion H; subst; simpl; eauto 10.
Qed.

(** ** Every call follows one of the paths *)

Lemma query_paths n qs qp s :
  query_path qs qp s (query (S (S n)) qs qp s).1
             (query (S (S n)) qs qp s).2.
Proof.
  destruct (attempt qs qp s) as [s1 r1] eqn:Ha.
  destruct (attempt_inv _ _ _ _ _ Ha) as (Hself & _ & [[d ->]|[e ->]]).
  { rewrite (query_return _ _ _ _ _ _ Ha). simpl. by apply path_return. }
  destruct (isinstance e TransportProtocolError) eqn:Hi.
  2: { rewrite (query_reraise _ _ _ _ _ _ Ha) by auto.
       simpl. apply path_reraise; auto. }
  destruct (_reauthenticated (self s)) eqn:Hflag.
  { rewrite (query_reraise _ _ _ _ _ _ Ha) by (rewrite Hself; auto).
    simpl. apply path_reraise; auto. }
  assert (Hcls : exn_class e = TransportProtocolError).
  { rewrite isinstance_class in Hi by discriminate.
    by apply bool_decide_eq_true in Hi. }
  rewrite <- Hself in Hflag.
  destruct (_initialize_client s1) as [s2 r2] eqn:Hinit.
  destruct (initialize_inv _ _ _ Hinit)
    as [(e2 & -> & _)|(token & -> & _)].
  { rewrite (query_rebuild_raise _ _ _ _ _ _ _ _ Ha Hcls Hflag Hinit).
    simpl. rewrite Hself in Hflag. eapply path_rebuild_raise; eauto. }
  destruct (attempt qs qp (flagged s2)) as [s3 r3] eqn:Hb.
  destruct (attempt_inv _ _ _ _ _ Hb) as (Hself3 & _ & [[d ->]|[e3 ->]]).
  - rewrite (query_retry _ _ _ _ _ _ _ _ _ _ Ha Hcls Hflag Hinit
               (query_return _ _ _ _ _ _ Hb)).
    simpl. rewrite Hself in Hflag. eapply path_retry_return; eauto.
  - assert (Hq : query (S n) qs qp (flagged s2)
                 = (cleaned (record (error_log e3) s3), Raise e3)).
    { apply query_reraise; [assumption|]. right. by rewrite Hself3. }
    rewrite (query_retry _ _ _ _ _ _ _ _ _ _ Ha Hcls Hflag Hinit Hq).
    simpl. rewrite Hself in Hflag. eapply path_retry_raise; eauto.
Qed.

(** ** Fuel

    A call made with the flag set does not recurse, and a call made with
    the flag unset recurses only with the flag set: fuel beyond two changes
    nothing. *)

Lemma query_flagged_fuel n m qs qp s :
  _reauthenticated (self s) = true ->
  query (S n) qs qp s = query (S m) qs qp s.
Proof.
  intros Hflag.
  destruct (attempt qs qp s) as [s1 r1] eqn:Ha.
  destruct (attempt_inv _ _ _ _ _ Ha) as (Hself & _ & [[d ->]|[e ->]]).
  - by rewrite !(query_return _ _ _ _ _ _ Ha).
  - rewrite <- Hself in Hflag.
    by rewrite !(query_reraise _ _ _ _ _ _ Ha) by auto.
Qed.

Lemma query_fuel n qs qp s :
  query (S (S n)) qs qp s = query 2 qs qp s.
Proof.
  destruct (attempt qs qp s) as [s1 r1] eqn:Ha.
  destruct (attempt_inv _ _ _ _ _ Ha) as (Hself & _ & [[d ->]|[e ->]]).
  { by rewrite !(query_return _ _ _ _ _ _ Ha). }
  destruct (isinstance e TransportProtocolError) eqn:Hi.
  2: { by rewrite !(query_reraise _ _ _ _ _ _ Ha) by auto. }
  destruct (_reauthenticated (self s1)) eqn:Hflag.
  { by rewrite !(query_reraise _ _ _ _ _ _ Ha) by auto. }
  assert (Hcls : exn_class e = TransportProtocolError).
  { rewrite isinstance_class in Hi by discriminate.
    by apply bool_decide_eq_true in Hi. }
  destruct (_initialize_client s1) as [s2 r2] eqn:Hinit.
  destruct (initialize_inv _ _ _ Hinit)
    as [(e2 & -> & _)|(token & -> & _)].
  { by rewrite !(query_rebuild_raise _ _ _ _ _ _ _ _ Ha Hcls Hflag Hinit). }
  destruct (query (S n) qs qp (flagged s2)) as [s3 r3] eqn:Hq.
  assert (Hq1 : query 1 qs qp (flagged s2) = (s3, r3)).
  { rewrite <- Hq. by apply query_flagged_fuel. }
  rewrite (query_retry _ _ _ _ _ _ _ _ _ _ Ha Hcls Hflag Hinit Hq).
  by rewrite (query_retry _ _ _ _ _ _ _ _ _ _ Ha Hcls Hflag Hinit Hq1).
Qed.

(** ** Reading the traces of the pieces *)

Lemma rebuilds_app (t u : list (Event DocumentNode)) :
  rebuilds (t ++ u) = rebuilds t ++ rebuilds u.
Proof. apply omap_app. Qed.

Lemma executions_app (t u : list (Event DocumentNode)) :
  executions (t ++ u) = executions t ++ executions u.
Proof. apply omap_app. Qed.

Lemma flag_writes_app (t u : list (Event DocumentNode)) :
  flag_writes (t ++ u) = flag_writes t ++ flag_writes u.
Proof. apply omap_app. Qed.

Lemma logs_app (t u : list (Event DocumentNode)) :
  logs (t ++ u) = logs t ++ logs u.
Proof. apply omap_app. Qed.

Lemma token_fetches_app (t u : list (Event DocumentNode)) :
  token_fetches (t ++ u) = token_fetches t + token_fetches u.
Proof. unfold token_fetches. by rewrite omap_app, length_app. Qed.

(** Counts the events of a trace written out as appended pieces, given
    the counts of the pieces. *)
Ltac tally :=
  rewrite ?token_fetches_app, ?rebuilds_app, ?executions_app, ?length_app;
  unfold token_fetches, rebuilds, executions in *; simpl in *; lia.

(** The handlers of [query] only log. *)
Lemma error_log_quiet (e : Exn) :
  rebuilds (@error_log DocumentNode e) = [] /\
  executions (@error_log DocumentNode e) = [] /\
  token_fetches (@error_log DocumentNode e) = 0 /\
  flag_writes (@error_log DocumentNode e) = [].
Proof.
  unfold error_log.
  repeat match goal with
         | |- context [if ?b then _ else _] => destruct b
         end; auto.
Qed.

Lemma credential_log_quiet (e : Exn) :
  rebuilds (@credential_log DocumentNode e) = [] /\
  executions (@credential_log DocumentNode e) = [] /\
  token_fetches (@credential_log DocumentNode e) = 0 /\
  flag_writes (@credential_log DocumentNode e) = [].
Proof. unfold credential_log. destruct (isinstance e Exception); auto. Qed.

(** An attempt builds no session, fetches no token, writes no flag and
    logs nothing. *)
Lemma attempt_quiet qs qp s s1 r :
  attempt qs qp s = (s1, r) ->
  rebuilds (trace s1) = rebuilds (trace s) /\
  token_fetches (trace s1) = token_fetches (trace s) /\
  flag_writes (trace s1) = flag_writes (trace s) /\
  logs (trace s1) = logs (trace s).
Proof.
  intros H. destruct (attempt_inv _ _ _ _ _ H)
    as (_ & (evs & -> & [->|(c & d & ->)]) & _).
  - by rewrite app_nil_r.
  - rewrite rebuilds_app, token_fetches_app, flag_writes_app, logs_app.
    simpl. by rewrite !app_nil_r, Nat.add_0_r.
Qed.

(** Severe records are what the two logs contain, and an instance of
    [Exception] gets one. *)
Lemma error_log_severe (e : Exn) :
  isinstance e Exception = true ->
  exists msg, @error_log DocumentNode e = [Log ERROR msg].
Proof.
  intros H. unfold error_log. rewrite H.
  repeat match goal with
         | |- context [if ?b then _ else _] => destruct b
         end; eauto.
Qed.

Lemma credential_log_severe (e : Exn) :
  isinstance e Exception = true ->
  exists msg, @credential_log DocumentNode e = [Log CRITICAL msg].
Proof. intros H. unfold credential_log. rewrite H. eauto. Qed.

(** An attempt that returns has sent the parsed document to the session
    in place and returns the transport's answer. *)
Lemma attempt_return_inv qs qp s s1 v :
  attempt qs qp s = (s1, Return v) ->
  exists c document w response,
    client (self s) = Some c /\ gql qs = inr document /\
    execute c document qp (world s) = (w, inr response) /\
    v = PyDict response /\
    s1 = mkState (self s) w (trace s ++ [Execute c document qp]).
Proof.
  rewrite attempt_eq.
  destruct (gql qs) as [e|document] eqn:Hg; [discriminate|].
  destruct (client (self s)) as [c|] eqn:Hc; [|discriminate].
  destruct (execute c document qp (world s)) as [w [e|response]] eqn:He;
    intros H; inversion H; subst.
  exists c, document, w, response. repeat split. exact He.
Qed.

(** The completion and the last step of every path. *)
Lemma path_cleaned qs qp s s' r :
  query_path qs qp s s' r ->
  (exists s0, s' = cleaned s0) /\
  ((exists v, r = Normal v) \/ exists e, r = Raise e).
Proof. destruct 1; eauto. Qed.

(** What a path adds to the trace: at most one token fetch, one new
    session and two requests. *)
Lemma path_bounds qs qp s s' r :
  query_path qs qp s s' r ->
  exists evs,
    trace s' = trace s ++ evs /\
    token_fetches evs <= 1 /\
    length (rebuilds evs) <= 1 /\
    length (executions evs) <= 2.
Proof.
  assert (Hone : forall q s0 s1 r1,
             attempt qs q s0 = (s1, r1) ->
             exists evs, trace s1 = trace s0 ++ evs /\
               token_fetches evs = 0 /\ length (rebuilds evs) = 0 /\
               length (executions evs) <= 1).
  { intros q s0 s1 r1 H.
    destruct (attempt_inv _ _ _ _ _ H)
      as (_ & (evs & Ht & [->|(c & d & ->)]) & _);
      eexists; (split; [exact Ht|]); simpl; auto. }
  assert (Hlog : forall e,
             token_fetches (@error_log DocumentNode e) = 0 /\
             length (rebuilds (@error_log DocumentNode e)) = 0 /\
             length (executions (@error_log DocumentNode e)) = 0).
  { intros e. destruct (error_log_quiet e) as (-> & -> & -> & _). auto. }
  assert (Hcred : forall e,
             token_fetches (@credential_log DocumentNode e) = 0 /\
             length (rebuilds (@credential_log DocumentNode e)) = 0 /\
             length (executions (@credential_log DocumentNode e)) = 0).
  { intros e. destruct (credential_log_quiet e) as (-> & -> & -> & _).
    auto. }
  destruct 1 as [s1 v Ha|s1 e Ha _|s1 e s2 e2 Ha _ _ Hi
                |s1 e s2 s3 v Ha _ _ Hi Hb|s1 e s2 s3 e3 Ha _ _ Hi Hb];
    destruct (Hone _ _ _ _ Ha) as (evs1 & T1 & F1 & R1 & E1);
    unfold cleaned, record; simpl.
  - rewrite T1, <- app_assoc. eexists; split; [reflexivity|]. tally.
  - destruct (Hlog e) as (Lt & Lr & Le).
    rewrite T1, <- !app_assoc. eexists; split; [reflexivity|]. tally.
  - destruct (initialize_inv _ _ _ Hi)
      as [(e' & He' & _ & T2)|(token & ? & _)]; [|discriminate].
    destruct (Hcred e') as (Lt & Lr & Le).
    rewrite T2, T1, <- !app_assoc. eexists; split; [reflexivity|].
    change (GetAccessToken :: credential_log e')
      with ([GetAccessToken] ++ @credential_log DocumentNode e').
    tally.
  - destruct (initialize_inv _ _ _ Hi)
      as [(e' & ? & _)|(token & _ & _ & T2)]; [discriminate|].
    destruct (Hone _ _ _ _ Hb) as (evs3 & T3 & F3 & R3 & E3).
    rewrite T3. unfold flagged. simpl.
    rewrite T2, T1, <- !app_assoc. eexists; split; [reflexivity|]. tally.
  - destruct (initialize_inv _ _ _ Hi)
      as [(e' & ? & _)|(token & _ & _ & T2)]; [discriminate|].
    destruct (Hone _ _ _ _ Hb) as (evs3 & T3 & F3 & R3 & E3).
    destruct (Hlog e3) as (Lt & Lr & Le).
    rewrite T3. unfold flagged. simpl.
    rewrite T2, T1, <- !app_assoc. eexists; split; [reflexivity|]. tally.
Qed.

(** ** The claims *)

(** C5.  When the first attempt succeeds -- the query text parses to
    [document], the current session [c] executes [document] with the given
    parameters and answers [response] -- [query] returns exactly
    [response].  Nothing else happened than that one request and the
    reset of the flag. *)
Theorem query_returns_the_response n qs qp s c document w response :
  client (self s) = Some c ->
  gql qs = inr document ->
  execute c document qp (world s) = (w, inr response) ->
  query (S n) qs qp s =
    (mkState (mkSelf false (Some c)) w
             (trace s ++ [Execute c document qp; SetReauthenticated false]),
     Normal (PyDict response)).
Proof.
  intros Hc Hg He.
  assert (Ha : attempt qs qp s =
               (mkState (self s) w (trace s ++ [Execute c document qp]),
                Return (PyDict response))).
  { rewrite attempt_eq, Hg, Hc, He. reflexivity. }
  rewrite (query_return _ _ _ _ _ _ Ha). unfold cleaned. simpl.
  by rewrite Hc, <- app_assoc.
Qed.

(** C1.  A call whose first attempt meets a transport-protocol error,
    whose rebuild obtains a token and whose retry then returns [v]: the
    recursive call returns [v], and the outer call returns the empty
    mapping all the same. *)
Theorem retry_result_is_discarded n qs qp s s1 e w2 token s3 v :
  _reauthenticated (self s) = false ->
  attempt qs qp s = (s1, Raise e) ->
  exn_class e = TransportProtocolError ->
  get_access_token (world s1) = (w2, inr token) ->
  let retry :=
    mkState (mkSelf true (Some (session token))) w2
            (trace s1 ++ [GetAccessToken; NewClient (session token);
                          SetReauthenticated true]) in
  attempt qs qp retry = (s3, Return v) ->
  query (S n) qs qp retry =
    (mkState (mkSelf false (Some (session token))) (world s3)
             (trace s3 ++ [SetReauthenticated false]),
     Normal v) /\
  query (S (S n)) qs qp s =
    (mkState (mkSelf false (Some (session token))) (world s3)
             (trace s3 ++ [SetReauthenticated false;
                           SetReauthenticated false]),
     Normal (PyDict ∅)).
Proof.
  intros Hflag Ha Hcls Htok retry Hb.
  destruct (attempt_inv _ _ _ _ _ Ha) as (Hself & _).
  destruct (attempt_inv _ _ _ _ _ Hb) as (Hself3 & _).
  assert (Hinit : _initialize_client s1
                  = (mkState (mkSelf false (Some (session token))) w2
                       (trace s1 ++ [GetAccessToken;
                                     NewClient (session token)]),
                     Normal tt)).
  { rewrite initialize_eq, Htok, Hself, Hflag. reflexivity. }
  assert (Hq : query (S n) qs qp retry
               = (mkState (mkSelf false (Some (session token))) (world s3)
                    (trace s3 ++ [SetReauthenticated false]),
                  Normal v)).
  { rewrite (query_return _ _ _ _ _ _ Hb). unfold cleaned.
    by rewrite Hself3. }
  split; [exact Hq|].
  assert (Hretry : flagged (mkState (mkSelf false (Some (session token))) w2
                              (trace s1 ++ [GetAccessToken;
                                            NewClient (session token)]))
                   = retry).
  { unfold flagged, retry. simpl. by rewrite <- app_assoc. }
  rewrite <- Hretry in Hq. rewrite <- Hself in Hflag.
  rewrite (query_retry _ _ _ _ _ _ _ _ _ _ Ha Hcls Hflag Hinit Hq).
  unfold cleaned. simpl. by rewrite <- app_assoc.
Qed.

(** C4.  An exception of the first attempt that is not a
    transport-protocol error -- a GraphQL error, a transport-query,
    transport-closed or transport-server error, any other exception -- is
    the exception the call raises.  After the attempt the call only logs
    and resets the flag: no token is fetched, no session is built, the
    session in place stays, and no further request is sent. *)
Theorem other_errors_are_reraised n qs qp s s1 e :
  attempt qs qp s = (s1, Raise e) ->
  isinstance e TransportProtocolError = false ->
  let s' := (query (S n) qs qp s).1 in
  query (S n) qs qp s =
    (mkState (mkSelf false (client (self s))) (world s1)
             (trace s1 ++ error_log e ++ [SetReauthenticated false]),
     Raise e) /\
  rebuilds (trace s') = rebuilds (trace s) /\
  token_fetches (trace s') = token_fetches (trace s) /\
  executions (trace s') = executions (trace s1).
Proof.
  intros Ha Hi s'. subst s'.
  destruct (attempt_inv _ _ _ _ _ Ha) as (Hself & _).
  destruct (attempt_quiet _ _ _ _ _ Ha) as (Hr & Ht & _).
  destruct (error_log_quiet e) as (Lr & Le & Lt & _).
  rewrite (query_reraise _ _ _ _ _ _ Ha) by auto.
  unfold cleaned, record. simpl.
  rewrite Hself, <- app_assoc. split; [reflexivity|].
  rewrite !rebuilds_app, !token_fetches_app, !executions_app.
  rewrite Lr, Le, Lt, Hr, Ht. simpl.
  by rewrite !app_nil_r, !Nat.add_0_r.
Qed.

(** C10.  The first attempt meets a transport-protocol error and the
    credential provider then raises [et] while the session is rebuilt:
    the call raises [et]; the only value ever written to the flag is the
    [False] of the cleanup; no request follows the first attempt and no
    session is built. *)
Theorem rebuild_failure_propagates n qs qp s s1 e w2 et :
  _reauthenticated (self s) = false ->
  attempt qs qp s = (s1, Raise e) ->
  exn_class e = TransportProtocolError ->
  get_access_token (world s1) = (w2, inl et) ->
  let s' := (query (S n) qs qp s).1 in
  query (S n) qs qp s =
    (mkState (mkSelf false (client (self s))) w2
             (trace s1 ++ GetAccessToken :: credential_log et
                ++ [SetReauthenticated false]),
     Raise et) /\
  flag_writes (trace s') = flag_writes (trace s) ++ [false] /\
  executions (trace s') = executions (trace s1) /\
  rebuilds (trace s') = rebuilds (trace s).
Proof.
  intros Hflag Ha Hcls Htok s'. subst s'.
  destruct (attempt_inv _ _ _ _ _ Ha) as (Hself & _).
  destruct (attempt_quiet _ _ _ _ _ Ha) as (Hr & _ & Hf & _).
  destruct (credential_log_quiet et) as (Lr & Le & _ & Lf).
  assert (Hinit : _initialize_client s1
                  = (mkState (self s1) w2
                       (trace s1 ++ GetAccessToken :: credential_log et),
                     Raise et)).
  { rewrite initialize_eq, Htok. reflexivity. }
  rewrite <- Hself in Hflag.
  rewrite (query_rebuild_raise _ _ _ _ _ _ _ _ Ha Hcls Hflag Hinit).
  unfold cleaned. simpl. rewrite Hself, <- app_assoc. simpl.
  split; [reflexivity|].
  change (GetAccessToken :: credential_log et ++ [SetReauthenticated false])
    with ([GetAccessToken] ++ credential_log et
            ++ [@SetReauthenticated DocumentNode false]).
  rewrite !flag_writes_app, !executions_app, !rebuilds_app.
  rewrite Lr, Le, Lf, Hr, Hf. simpl. by rewrite !app_nil_r.
Qed.

(** C6.  When the credential provider raises [e] during construction,
    construction raises [e]: the provider was asked once, no [Client] was
    built and the instance has no [client] attribute. *)
Theorem construction_fails_without_token w w' e :
  get_access_token w = (w', inl e) ->
  new w =
    (mkState (mkSelf false None) w'
             (SetReauthenticated false :: GetAccessToken
                :: credential_log e),
     Raise e) /\
  client (self (new w).1) = None /\
  rebuilds (trace (new w).1) = [] /\
  token_fetches (trace (new w).1) = 1.
Proof.
  intros Htok.
  assert (Hnew : new w =
    (mkState (mkSelf false None) w'
             (SetReauthenticated false :: GetAccessToken
                :: credential_log e),
     Raise e)).
  { unfold new, __init__, bind, set_reauthenticated. simpl.
    rewrite initialize_eq. simpl. rewrite Htok. reflexivity. }
  rewrite Hnew. split; [reflexivity|]. split; [reflexivity|].
  cbn [fst trace].
  destruct (credential_log_quiet e) as (Lr & _ & Lt & _).
  change (SetReauthenticated false :: GetAccessToken :: credential_log e)
    with ([SetReauthenticated false; GetAccessToken]
            ++ @credential_log DocumentNode e).
  rewrite rebuilds_app, token_fetches_app, Lr, Lt. auto.
Qed.

(** C2.  Whatever path a call of [query] takes, it ends -- by returning
    or by raising -- with the flag unset, and the last thing it did was
    the assignment of [False] in the [finally] clause. *)
Theorem flag_is_reset n qs qp s :
  _reauthenticated (self (query (S (S n)) qs qp s).1) = false /\
  last (trace (query (S (S n)) qs qp s).1)
    = Some (SetReauthenticated false) /\
  ((exists v, (query (S (S n)) qs qp s).2 = Normal v) \/
   (exists e, (query (S (S n)) qs qp s).2 = Raise e)).
Proof.
  destruct (path_cleaned _ _ _ _ _ (query_paths n qs qp s))
    as ((s0 & ->) & Hr).
  split; [reflexivity|]. split; [|exact Hr].
  unfold cleaned. simpl. apply last_snoc.
Qed.

(** C9.  A call of [query] that does not raise returns a dictionary: the
    response of the first attempt's request, or the empty dictionary.  It
    does not return [None], and it does return or raise. *)
Theorem query_returns_a_dictionary n qs qp s :
  match (query (S (S n)) qs qp s).2 with
  | Normal v =>
      v <> PyNone /\
      ((exists c document w response,
          client (self s) = Some c /\ gql qs = inr document /\
          execute c document qp (world s) = (w, inr response) /\
          v = PyDict response)
       \/ v = PyDict ∅)
  | Raise _ => True
  | Return _ | OutOfFuel => False
  end.
Proof.
  destruct (query_paths n qs qp s); try exact I.
  - destruct (attempt_return_inv _ _ _ _ _ H)
      as (c & document & w & response & Hc & Hg & He & -> & _).
    split; [discriminate|]. left. eauto 10.
  - split; [discriminate|]. by right.
Qed.

(** C7.  Whenever construction or a call of [query] raises an instance
    [e] of [Exception] -- a credential failure, a GraphQL error, a
    transport-protocol error of the retry, a transport-query,
    transport-closed or transport-server error, an unknown error -- a
    record at error or critical severity has been logged by the time the
    exception reaches the caller: the record that the handler of [e]'s
    category writes. *)
Theorem failures_are_logged s s' e :
  (exists w, s = mkState (mkSelf false None) w [] /\ new w = (s', Raise e))
    \/ (exists n qs qp, query (S (S n)) qs qp s = (s', Raise e)) ->
  isinstance e Exception = true ->
  exists evs lvl msg,
    trace s' = trace s ++ evs /\
    In (Log lvl msg) evs /\
    severe lvl = true /\
    (In (Log lvl msg) (@error_log DocumentNode e)
       \/ In (Log lvl msg) (@credential_log DocumentNode e)).
Proof.
  intros [(w & -> & Hnew)|(n & qs & qp & Hq)] Hexc.
  - unfold new, __init__, bind, set_reauthenticated in Hnew.
    simpl in Hnew.
    destruct (initialize_inv _ _ _ Hnew)
      as [(e' & He' & _ & T)|(token & ? & _)]; [|discriminate].
    inversion He'; subst e'.
    destruct (credential_log_severe e Hexc) as (msg & L).
    exists (SetReauthenticated false :: GetAccessToken :: credential_log e),
      CRITICAL, msg.
    simpl in T. rewrite T, L. simpl. auto 10.
  - pose proof (query_paths n qs qp s) as P. rewrite Hq in P. simpl in P.
    inversion P as [|s1 e0 Ha _|s1 e0 s2 e2 Ha _ _ Hi
                   | |s1 e0 s2 s3 e3 Ha _ _ Hi Hb]; subst.
    + destruct (attempt_inv _ _ _ _ _ Ha) as (_ & (evs1 & T1 & _) & _).
      destruct (error_log_severe e Hexc) as (msg & L).
      exists (evs1 ++ error_log e ++ [SetReauthenticated false]), ERROR, msg.
      unfold cleaned, record. simpl. rewrite T1, <- !app_assoc, L.
      split; [reflexivity|]. split; [|simpl; auto].
      apply in_or_app. right. simpl. auto.
    + destruct (attempt_inv _ _ _ _ _ Ha) as (_ & (evs1 & T1 & _) & _).
      destruct (initialize_inv _ _ _ Hi)
        as [(e' & He' & _ & T2)|(token & ? & _)]; [|discriminate].
      inversion He'; subst e'.
      destruct (credential_log_severe e Hexc) as (msg & L).
      exists (evs1 ++ GetAccessToken :: credential_log e
                ++ [SetReauthenticated false]), CRITICAL, msg.
      unfold cleaned. simpl. rewrite T2, T1, <- !app_assoc, L.
      split; [reflexivity|]. split; [|simpl; auto].
      apply in_or_app. right. simpl. auto.
    + destruct (attempt_inv _ _ _ _ _ Ha) as (_ & (evs1 & T1 & _) & _).
      destruct (attempt_inv _ _ _ _ _ Hb) as (_ & (evs3 & T3 & _) & _).
      destruct (initialize_inv _ _ _ Hi)
        as [(e' & ? & _)|(token & _ & _ & T2)]; [discriminate|].
      destruct (error_log_severe e Hexc) as (msg & L).
      exists (evs1 ++ [GetAccessToken; NewClient (session token)]
                ++ [SetReauthenticated true] ++ evs3 ++ error_log e
                ++ [SetReauthenticated false; SetReauthenticated false]),
        ERROR, msg.
      unfold cleaned, record, flagged in *. simpl in *.
      rewrite T3, T2, T1, <- !app_assoc, L.
      split; [reflexivity|]. split; [|simpl; auto].
      apply in_or_app. right. simpl. right. right. right.
      apply in_or_app. right. simpl. auto.
Qed.

(** The reauthentication branch in full: a first attempt that met a
    transport-protocol error with the flag unset, a rebuild that obtained
    [token], and the one further attempt, made in the state [retry]. *)
Lemma retry_once n qs qp s s1 e1 w2 token s3 r3 :
  _reauthenticated (self s) = false ->
  attempt qs qp s = (s1, Raise e1) ->
  exn_class e1 = TransportProtocolError ->
  get_access_token (world s1) = (w2, inr token) ->
  let retry :=
    mkState (mkSelf true (Some (session token))) w2
            (trace s1 ++ [GetAccessToken; NewClient (session token);
                          SetReauthenticated true]) in
  attempt qs qp retry = (s3, r3) ->
  let s' := (query (S (S n)) qs qp s).1 in
  query (S (S n)) qs qp s =
    (mkState (mkSelf false (Some (session token))) (world s3)
       (trace s3
          ++ match r3 with Raise e3 => error_log e3 | _ => [] end
          ++ [SetReauthenticated false; SetReauthenticated false]),
     match r3 with
     | Raise e3 => Raise e3
     | _ => Normal (PyDict ∅)
     end) /\
  token_fetches (trace s') = token_fetches (trace s) + 1 /\
  rebuilds (trace s') = rebuilds (trace s) ++ [session token] /\
  executions (trace s') = executions (trace s3).
Proof.
  intros Hflag Ha Hcls Htok retry Hb s'.
  destruct (attempt_inv _ _ _ _ _ Ha) as (Hself & _).
  destruct (attempt_quiet _ _ _ _ _ Ha) as (Hr1 & Ht1 & _).
  destruct (attempt_inv _ _ _ _ _ Hb) as (Hself3 & _ & Hr3).
  destruct (attempt_quiet _ _ _ _ _ Hb) as (Hr & Ht & _).
  assert (Hinit : _initialize_client s1
                  = (mkState (mkSelf false (Some (session token))) w2
                       (trace s1 ++ [GetAccessToken;
                                     NewClient (session token)]),
                     Normal tt)).
  { rewrite initialize_eq, Htok, Hself, Hflag. reflexivity. }
  assert (Hretry : flagged (mkState (mkSelf false (Some (session token))) w2
                              (trace s1 ++ [GetAccessToken;
                                            NewClient (session token)]))
                   = retry).
  { unfold flagged, retry. simpl. by rewrite <- app_assoc. }
  rewrite <- Hself in Hflag.
  assert (Hq : query (S (S n)) qs qp s =
    (mkState (mkSelf false (Some (session token))) (world s3)
       (trace s3
          ++ match r3 with Raise e3 => error_log e3 | _ => [] end
          ++ [SetReauthenticated false; SetReauthenticated false]),
     match r3 with
     | Raise e3 => Raise e3
     | _ => Normal (PyDict ∅)
     end)).
  { destruct Hr3 as [[d ->]|[e3 ->]].
    - pose proof (query_return n _ _ _ _ _ Hb) as Hi.
      rewrite <- Hretry in Hi.
      rewrite (query_retry _ _ _ _ _ _ _ _ _ _ Ha Hcls Hflag Hinit Hi).
      unfold cleaned. simpl. by rewrite Hself3, <- app_assoc.
    - assert (Hi : query (S n) qs qp retry =
                   (cleaned (record (error_log e3) s3), Raise e3)).
      { apply query_reraise; [exact Hb|]. right. by rewrite Hself3. }
      rewrite <- Hretry in Hi.
      rewrite (query_retry _ _ _ _ _ _ _ _ _ _ Ha Hcls Hflag Hinit Hi).
      unfold cleaned, record. simpl. by rewrite Hself3, <- !app_assoc. }
  split; [exact Hq|]. subst s'. rewrite Hq. cbn [fst trace].
  assert (Hlog : token_fetches
                   (match r3 with
                    | Raise e3 => @error_log DocumentNode e3
                    | _ => []
                    end) = 0 /\
                 rebuilds
                   (match r3 with
                    | Raise e3 => @error_log DocumentNode e3
                    | _ => []
                    end) = [] /\
                 executions
                   (match r3 with
                    | Raise e3 => @error_log DocumentNode e3
                    | _ => []
                    end) = []).
  { destruct r3 as [| |e3|]; auto.
    destruct (error_log_quiet e3) as (? & ? & ? & _). auto. }
  destruct Hlog as (Lt & Lr & Le).
  rewrite !token_fetches_app, !rebuilds_app, !executions_app, Lt, Lr, Le.
  rewrite Hr, Ht. unfold retry. cbn [trace].
  rewrite token_fetches_app, rebuilds_app, Hr1, Ht1. simpl.
  by rewrite !app_nil_r, !Nat.add_0_r.
Qed.

(** C3, as amended.  No call fetches more than one token, builds more than
    one session or sends more than two requests.  When the first attempt
    meets a transport-protocol error and the rebuild obtains a token, the
    call consists of that attempt, one token fetch, one new session around
    the token and one further attempt at the same query with the same
    parameters; an exception of that retry, a transport-protocol error
    included, is logged and raised to the caller, and nothing is rebuilt or
    sent after it.  In terms of requests: when it was the transport that
    raised the error, exactly two requests are sent, the same document with
    the same parameters, first on the old session, then on the new one. *)
Theorem one_rebuild_one_retry n qs qp s :
  let s' := (query (S (S n)) qs qp s).1 in
  (exists evs,
     trace s' = trace s ++ evs /\
     token_fetches evs <= 1 /\
     length (rebuilds evs) <= 1 /\
     length (executions evs) <= 2) /\
  (forall s1 e1 w2 token s3 r3,
     _reauthenticated (self s) = false ->
     attempt qs qp s = (s1, Raise e1) ->
     exn_class e1 = TransportProtocolError ->
     get_access_token (world s1) = (w2, inr token) ->
     attempt qs qp
       (mkState (mkSelf true (Some (session token))) w2
          (trace s1 ++ [GetAccessToken; NewClient (session token);
                        SetReauthenticated true]))
       = (s3, r3) ->
     query (S (S n)) qs qp s =
       (mkState (mkSelf false (Some (session token))) (world s3)
          (trace s3
             ++ match r3 with Raise e3 => error_log e3 | _ => [] end
             ++ [SetReauthenticated false; SetReauthenticated false]),
        match r3 with
        | Raise e3 => Raise e3
        | _ => Normal (PyDict ∅)
        end) /\
     token_fetches (trace s') = token_fetches (trace s) + 1 /\
     rebuilds (trace s') = rebuilds (trace s) ++ [session token] /\
     executions (trace s') = executions (trace s3)) /\
  (forall c document w1 e1 w2 token w3 r,
     _reauthenticated (self s) = false ->
     client (self s) = Some c ->
     gql qs = inr document ->
     execute c document qp (world s) = (w1, inl e1) ->
     exn_class e1 = TransportProtocolError ->
     get_access_token w1 = (w2, inr token) ->
     execute (session token) document qp w2 = (w3, r) ->
     query (S (S n)) qs qp s =
       (mkState (mkSelf false (Some (session token))) w3
          (trace s
             ++ [Execute c document qp; GetAccessToken;
                 NewClient (session token); SetReauthenticated true;
                 Execute (session token) document qp]
             ++ match r with inl e2 => error_log e2 | inr _ => [] end
             ++ [SetReauthenticated false; SetReauthenticated false]),
        match r with
        | inl e2 => Raise e2
        | inr _ => Normal (PyDict ∅)
        end) /\
     token_fetches (trace s') = token_fetches (trace s) + 1 /\
     rebuilds (trace s') = rebuilds (trace s) ++ [session token] /\
     executions (trace s') =
       executions (trace s)
         ++ [(c, document, qp); (session token, document, qp)]).
Proof.
  intros s'. split.
  { apply (path_bounds qs qp s _ _ (query_paths n qs qp s)). }
  split.
  { intros s1 e1 w2 token s3 r3 Hflag Ha Hcls Htok Hb.
    exact (retry_once n qs qp s s1 e1 w2 token s3 r3 Hflag Ha Hcls Htok Hb). }
  intros c document w1 e1 w2 token w3 r Hflag Hc Hg He1 Hcls Htok He2.
  assert (Ha : attempt qs qp s =
               (mkState (self s) w1 (trace s ++ [Execute c document qp]),
                Raise e1)).
  { rewrite attempt_eq, Hg, Hc, He1. reflexivity. }
  assert (Hinit :
    _initialize_client
      (mkState (self s) w1 (trace s ++ [Execute c document qp]))
    = (mkState (mkSelf false (Some (session token))) w2
         ((trace s ++ [Execute c document qp])
            ++ [GetAccessToken; NewClient (session token)]),
       Normal tt)).
  { rewrite initialize_eq. simpl. rewrite Htok, Hflag. reflexivity. }
  set (retry := flagged
         (mkState (mkSelf false (Some (session token))) w2
            ((trace s ++ [Execute c document qp])
               ++ [GetAccessToken; NewClient (session token)]))).
  assert (Hb : attempt qs qp retry =
               (mkState (self retry) w3
                  (trace retry ++ [Execute (session token) document qp]),
                match r with
                | inl e2 => Raise e2
                | inr response => Return (PyDict response)
                end)).
  { rewrite attempt_eq, Hg. simpl. rewrite He2. reflexivity. }
  assert (Hq : query (S (S n)) qs qp s =
    (mkState (mkSelf false (Some (session token))) w3
       (trace s
          ++ [Execute c document qp; GetAccessToken;
              NewClient (session token); SetReauthenticated true;
              Execute (session token) document qp]
          ++ match r with inl e2 => error_log e2 | inr _ => [] end
          ++ [SetReauthenticated false; SetReauthenticated false]),
     match r with
     | inl e2 => Raise e2
     | inr _ => Normal (PyDict ∅)
     end)).
  { destruct r as [e2|response].
    - assert (Hr : query (S n) qs qp retry =
                   (cleaned (record (error_log e2)
                      (mkState (self retry) w3
                         (trace retry
                            ++ [Execute (session token) document qp]))),
                    Raise e2)).
      { apply query_reraise; [exact Hb|]. right. reflexivity. }
      rewrite (query_retry _ _ _ _ _ _ _ _ _ _ Ha Hcls Hflag Hinit Hr).
      unfold cleaned, record, retry, flagged. simpl.
      by rewrite <- !app_assoc.
    - rewrite (query_retry _ _ _ _ _ _ _ _ _ _ Ha Hcls Hflag Hinit
                 (query_return _ _ _ _ _ _ Hb)).
      unfold cleaned, retry, flagged. simpl.
      by rewrite <- !app_assoc. }
  split; [exact Hq|]. subst s'. rewrite Hq. cbn [fst trace].
  assert (Hlog : token_fetches
                   (match r with
                    | inl e2 => @error_log DocumentNode e2
                    | inr _ => []
                    end) = 0 /\
                 rebuilds
                   (match r with
                    | inl e2 => @error_log DocumentNode e2
                    | inr _ => []
                    end) = [] /\
                 executions
                   (match r with
                    | inl e2 => @error_log DocumentNode e2
                    | inr _ => []
                    end) = []).
  { destruct r as [e2|]; [|auto].
    destruct (error_log_quiet e2) as (? & ? & ? & _). auto. }
  destruct Hlog as (Lt & Lr & Le).
  rewrite !token_fetches_app, !rebuilds_app, !executions_app, Lt, Lr, Le.
  simpl. auto.
Qed.

(** * Beyond the claims *)

(** ** The shape of a call

    The events of an attempt, with where its request went. *)
Lemma attempt_request qs qp s s1 r :
  attempt qs qp s = (s1, r) ->
  exists evs,
    trace s1 = trace s ++ evs /\
    (evs = [] /\ world s1 = world s
     \/ exists c document,
          evs = [Execute c document qp] /\
          client (self s) = Some c /\ gql qs = inr document).
Proof.
  rewrite attempt_eq.
  destruct (gql qs) as [e|document] eqn:Hg.
  { intros H; inversion H; subst. exists []. rewrite app_nil_r. auto. }
  destruct (client (self s)) as [c|] eqn:Hc.
  2: { intros H; inversion H; subst. exists []. rewrite app_nil_r. auto. }
  destruct (execute c document qp (world s)) as [w x].
  intros H; inversion H; subst. simpl.
  exists [Execute c document qp]. split; [reflexivity|]. right. eauto.
Qed.

(** A rebuild either fails and leaves the instance alone, or installs the
    session of a token that the credential provider returned. *)
Lemma initialize_session s s2 r :
  _initialize_client s = (s2, r) ->
  (exists e, r = Raise e /\ self s2 = self s /\
     trace s2 = trace s ++ GetAccessToken :: credential_log e) \/
  (exists token w2, r = Normal tt /\
     get_access_token (world s) = (w2, inr token) /\
     self s2 = mkSelf (_reauthenticated (self s)) (Some (session token)) /\
     trace s2 = trace s ++ [GetAccessToken; NewClient (session token)]).
Proof.
  rewrite initialize_eq.
  destruct (get_access_token (world s)) as [w [e|token]] eqn:Ht;
    intros H; inversion H; subst; simpl; eauto 10.
Qed.

(** Every path written out: the events of the first attempt, then either
    the cleanup alone, or a log record and the cleanup, or the failed token
    fetch, or the rebuild and the retry; and the session left in place. *)
Lemma path_shape qs qp s s' r :
  query_path qs qp s s' r ->
  exists a1,
    (a1 = [] \/
     exists c document,
       a1 = [Execute c document qp] /\
       client (self s) = Some c /\ gql qs = inr document) /\
    ((exists v, r = Normal v /\
        client (self s') = client (self s) /\
        trace s' = trace s ++ a1 ++ [SetReauthenticated false])
     \/ (exists e, r = Raise e /\
           client (self s') = client (self s) /\
           trace s' =
             trace s ++ a1 ++ error_log e ++ [SetReauthenticated false])
     \/ (exists e, r = Raise e /\
           client (self s') = client (self s) /\
           trace s' =
             trace s ++ a1 ++ GetAccessToken :: credential_log e
               ++ [SetReauthenticated false])
     \/ (exists token a3 lg,
           client (self s') = Some (session token) /\
           (exists w1 w2, get_access_token w1 = (w2, inr token)) /\
           (a3 = [] \/
            exists document,
              a3 = [Execute (session token) document qp] /\
              gql qs = inr document) /\
           (r = Normal (PyDict ∅) /\ lg = []
            \/ exists e3, r = Raise e3 /\ lg = error_log e3) /\
           trace s' =
             trace s ++ a1
               ++ [GetAccessToken; NewClient (session token);
                   SetReauthenticated true]
               ++ a3 ++ lg
               ++ [SetReauthenticated false; SetReauthenticated false])).
Proof.
  assert (Hfirst : forall s1 r1,
            attempt qs qp s = (s1, r1) ->
            self s1 = self s /\
            exists a1, trace s1 = trace s ++ a1 /\
              (a1 = [] \/
               exists c document,
                 a1 = [Execute c document qp] /\
                 client (self s) = Some c /\ gql qs = inr document)).
  { intros s1 r1 H. destruct (attempt_inv _ _ _ _ _ H) as (Hself & _).
    destruct (attempt_request _ _ _ _ _ H) as (a1 & T & [[-> _]|Hx]);
      eauto 10. }
  destruct 1 as [s1 v Ha|s1 e Ha _|s1 e s2 e2 Ha _ _ Hi
                |s1 e s2 s3 v Ha _ _ Hi Hb|s1 e s2 s3 e3 Ha _ _ Hi Hb];
    destruct (Hfirst _ _ Ha) as (Hself & a1 & T1 & Hreq);
    exists a1; (split; [exact Hreq|]).
  - left. exists v. unfold cleaned. simpl.
    rewrite Hself, T1, <- app_assoc. auto.
  - right. left. exists e. unfold cleaned, record. simpl.
    rewrite Hself, T1, <- !app_assoc. auto.
  - right. right. left. exists e2.
    destruct (initialize_session _ _ _ Hi)
      as [(e' & He' & Hs2 & T2)|(token & w2 & ? & _)]; [|discriminate].
    inversion He'; subst e'. unfold cleaned. simpl.
    rewrite Hs2, Hself, T2, T1, <- !app_assoc. auto.
  - right. right. right.
    destruct (initialize_session _ _ _ Hi)
      as [(e' & ? & _)|(token & w2 & _ & Htok & Hs2 & T2)]; [discriminate|].
    destruct (attempt_inv _ _ _ _ _ Hb) as (Hself3 & _).
    destruct (attempt_request _ _ _ _ _ Hb) as (a3 & T3 & Hreq3).
    exists token, a3, []. unfold cleaned, flagged in *. simpl in *.
    rewrite Hself3, Hs2. simpl. split; [reflexivity|].
    split; [eauto|].
    split.
    { destruct Hreq3 as [[-> _]|(c & d & -> & Hc & Hg)]; [auto|].
      rewrite Hs2 in Hc. simpl in Hc. inversion Hc; subst c. eauto. }
    split; [auto|].
    rewrite T3, T2, T1, <- !app_assoc. reflexivity.
  - right. right. right.
    destruct (initialize_session _ _ _ Hi)
      as [(e' & ? & _)|(token & w2 & _ & Htok & Hs2 & T2)]; [discriminate|].
    destruct (attempt_inv _ _ _ _ _ Hb) as (Hself3 & _).
    destruct (attempt_request _ _ _ _ _ Hb) as (a3 & T3 & Hreq3).
    exists token, a3, (error_log e3).
    unfold cleaned, flagged, record in *. simpl in *.
    rewrite Hself3, Hs2. simpl. split; [reflexivity|].
    split; [eauto|].
    split.
    { destruct Hreq3 as [[-> _]|(c & d & -> & Hc & Hg)]; [auto|].
      rewrite Hs2 in Hc. simpl in Hc. inversion Hc; subst c. eauto. }
    split; [eauto|].
    rewrite T3, T2, T1, <- !app_assoc. reflexivity.
Qed.

(** The two logs hold log records only, one at most. *)
Lemma error_log_logs (e : Exn) :
  rebuilds (@error_log DocumentNode e) = [] /\
  executions (@error_log DocumentNode e) = [] /\
  length (logs (@error_log DocumentNode e)) <= 1.
Proof.
  unfold error_log.
  repeat match goal with
         | |- context [if ?b then _ else _] => destruct b
         end; simpl; auto.
Qed.

Lemma credential_log_logs (e : Exn) :
  rebuilds (@credential_log DocumentNode e) = [] /\
  executions (@credential_log DocumentNode e) = [] /\
  length (logs (@credential_log DocumentNode e)) <= 1.
Proof.
  unfold credential_log. destruct (isinstance e Exception); simpl; auto.
Qed.

(** ** Construction *)

(** X1.  When the credential provider returns [token], construction
    succeeds after that one fetch and leaves the flag unset and a session
    in place: bound to [ROBOT_API_URL], fetching the schema from the
    transport, and carrying one header, [authorization], whose value is
    [Bearer] followed by the token. *)
Theorem construction_builds_the_session w w' token :
  get_access_token w = (w', inr token) ->
  exists c,
    new w =
      (mkState (mkSelf false (Some c)) w'
               [SetReauthenticated false; GetAccessToken; NewClient c],
       Normal tt) /\
    url (transport c) = ROBOT_API_URL /\
    fetch_schema_from_transport c = true /\
    headers (transport c) !! "authorization"
      = Some (String.app "Bearer " token) /\
    (forall k, k <> "authorization" -> headers (transport c) !! k = None).
Proof.
  intros Htok. exists (session token). split.
  { unfold new, __init__, bind, set_reauthenticated. simpl.
    rewrite initialize_eq. simpl. by rewrite Htok. }
  unfold session. simpl. split; [reflexivity|]. split; [reflexivity|].
  split.
  - apply lookup_singleton_eq.
  - intros k Hk. by apply lookup_singleton_ne.
Qed.

(** ** What a call does to the session, the log and the transport *)

(** X2.  A call replaces the session only by one it has just built around
    a token that the credential provider returned.  In a call that builds
    none -- it returned at once, it raised, or the token fetch of its
    rebuild failed -- the session in place is the one it found. *)
Theorem session_changes_only_by_rebuild n qs qp s :
  exists evs,
    trace (query (S (S n)) qs qp s).1 = trace s ++ evs /\
    (rebuilds evs = [] /\
     client (self (query (S (S n)) qs qp s).1) = client (self s)
     \/ exists token w1 w2,
          get_access_token w1 = (w2, inr token) /\
          rebuilds evs = [session token] /\
          client (self (query (S (S n)) qs qp s).1)
            = Some (session token)).
Proof.
  destruct (path_shape _ _ _ _ _ (query_paths n qs qp s))
    as (a1 & Hreq & Hshape).
  assert (R1 : rebuilds a1 = [])
    by (destruct Hreq as [->|(c & d & -> & _)]; reflexivity).
  destruct Hshape as [(v & _ & Hc & T)|[(e & _ & Hc & T)|[(e & _ & Hc & T)
                     |(token & a3 & lg & Hc & (w1 & w2 & Htok) & Hreq3
                       & Hlg & T)]]];
    eexists; (split; [exact T|]).
  - left. split; [|exact Hc]. by rewrite rebuilds_app, R1.
  - left. split; [|exact Hc].
    destruct (error_log_logs e) as (Lr & _).
    by rewrite !rebuilds_app, R1, Lr.
  - left. split; [|exact Hc].
    destruct (credential_log_logs e) as (Lr & _).
    change (GetAccessToken :: credential_log e ++ [SetReauthenticated false])
      with ([GetAccessToken] ++ credential_log e
              ++ [@SetReauthenticated DocumentNode false]).
    by rewrite !rebuilds_app, R1, Lr.
  - right. exists token, w1, w2. split; [exact Htok|]. split; [|exact Hc].
    assert (R3 : rebuilds a3 = [])
      by (destruct Hreq3 as [->|(d & -> & _)]; reflexivity).
    assert (Rl : rebuilds lg = []).
    { destruct Hlg as [[_ ->]|(e3 & _ & ->)]; [reflexivity|].
      by destruct (error_log_logs e3) as (Lr & _). }
    by rewrite !rebuilds_app, R1, R3, Rl.
Qed.

(** X3.  A call that returns has logged nothing, also when it returns
    after a retry: the transport-protocol error of the first attempt then
    appears nowhere.  A call that raises [e] has logged the record of [e]
    and nothing else; the error of a first attempt that led to the rebuild
    is not in the log either. *)
Theorem one_record_per_failure n qs qp s :
  exists evs,
    trace (query (S (S n)) qs qp s).1 = trace s ++ evs /\
    length (logs evs) <= 1 /\
    match (query (S (S n)) qs qp s).2 with
    | Normal _ => logs evs = []
    | Raise e =>
        logs evs = logs (@error_log DocumentNode e)
        \/ logs evs = logs (@credential_log DocumentNode e)
    | _ => False
    end.
Proof.
  destruct (path_shape _ _ _ _ _ (query_paths n qs qp s))
    as (a1 & Hreq & Hshape).
  assert (L1 : logs a1 = [])
    by (destruct Hreq as [->|(c & d & -> & _)]; reflexivity).
  destruct Hshape as [(v & -> & _ & T)|[(e & -> & _ & T)|[(e & -> & _ & T)
                     |(token & a3 & lg & _ & _ & Hreq3 & Hlg & T)]]];
    eexists; (split; [exact T|]).
  - rewrite logs_app, L1. simpl. auto.
  - destruct (error_log_logs e) as (_ & _ & Ll).
    rewrite !logs_app, L1. simpl. rewrite app_nil_r. auto.
  - destruct (credential_log_logs e) as (_ & _ & Ll).
    change (GetAccessToken :: credential_log e ++ [SetReauthenticated false])
      with ([GetAccessToken] ++ credential_log e
              ++ [@SetReauthenticated DocumentNode false]).
    rewrite !logs_app, L1. simpl. rewrite app_nil_r. auto.
  - assert (L3 : logs a3 = [])
      by (destruct Hreq3 as [->|(d & -> & _)]; reflexivity).
    destruct Hlg as [[-> ->]|(e3 & -> & ->)];
      rewrite !logs_app, L1, L3; cbn [logs omap app]; rewrite ?app_nil_r.
    + simpl. auto.
    + destruct (error_log_logs e3) as (_ & _ & Ll). auto.
Qed.

(** X4.  Every request that a call sends carries the document that [gql]
    made of the call's query text and the call's parameters, and goes to
    the session that was in place when the call began or to the one in
    place when it ends. *)
Theorem requests_carry_the_call n qs qp s :
  exists evs,
    trace (query (S (S n)) qs qp s).1 = trace s ++ evs /\
    Forall (fun x =>
              gql qs = inr x.1.2 /\ x.2 = qp /\
              (client (self s) = Some x.1.1 \/
               client (self (query (S (S n)) qs qp s).1) = Some x.1.1))
           (executions evs).
Proof.
  destruct (path_shape _ _ _ _ _ (query_paths n qs qp s))
    as (a1 & Hreq & Hshape).
  destruct Hshape as [(v & _ & Hc & T)|[(e & _ & Hc & T)|[(e & _ & Hc & T)
                     |(token & a3 & lg & Hc & _ & Hreq3 & Hlg & T)]]];
    eexists; (split; [exact T|]).
  - rewrite executions_app. simpl. rewrite app_nil_r.
    destruct Hreq as [->|(c & d & -> & Hc0 & Hg)]; simpl; auto.
  - destruct (error_log_logs e) as (_ & Le & _).
    rewrite !executions_app, Le. simpl. rewrite app_nil_r.
    destruct Hreq as [->|(c & d & -> & Hc0 & Hg)]; simpl; auto.
  - destruct (credential_log_logs e) as (_ & Le & _).
    change (GetAccessToken :: credential_log e ++ [SetReauthenticated false])
      with ([GetAccessToken] ++ credential_log e
              ++ [@SetReauthenticated DocumentNode false]).
    rewrite !executions_app, Le. simpl. rewrite app_nil_r.
    destruct Hreq as [->|(c & d & -> & Hc0 & Hg)]; simpl; auto.
  - assert (El : executions lg = []).
    { destruct Hlg as [[_ ->]|(e3 & _ & ->)]; [reflexivity|].
      by destruct (error_log_logs e3) as (_ & Le & _). }
    rewrite !executions_app, El. simpl. rewrite !app_nil_r.
    apply Forall_app. split.
    + destruct Hreq as [->|(c & d & -> & Hc0 & Hg)]; simpl; auto.
    + destruct Hreq3 as [->|(d & -> & Hg)]; simpl; auto.
Qed.

(** X5.  A query text that [gql] rejects never reaches the transport:
    the call raises the parser's exception, having logged it, with the
    world as it was, no request sent, no token fetched and the session
    untouched. *)
Theorem unparsed_query_is_not_sent n qs qp s e :
  gql qs = inl e ->
  isinstance e TransportProtocolError = false ->
  query (S n) qs qp s =
    (mkState (mkSelf false (client (self s))) (world s)
             (trace s ++ error_log e ++ [SetReauthenticated false]),
     Raise e) /\
  executions (trace (query (S n) qs qp s).1) = executions (trace s) /\
  token_fetches (trace (query (S n) qs qp s).1) = token_fetches (trace s).
Proof.
  intros Hg Hi.
  assert (Ha : attempt qs qp s = (s, Raise e)).
  { rewrite attempt_eq, Hg. reflexivity. }
  assert (Hq : query (S n) qs qp s =
               (mkState (mkSelf false (client (self s))) (world s)
                  (trace s ++ error_log e ++ [SetReauthenticated false]),
                Raise e)).
  { rewrite (query_reraise _ _ _ _ _ _ Ha) by auto.
    unfold cleaned, record. simpl. by rewrite <- app_assoc. }
  split; [exact Hq|]. rewrite Hq. cbn [fst trace].
  destruct (error_log_quiet e) as (_ & Le & Lt & _).
  rewrite !executions_app, !token_fetches_app, Le, Lt. simpl.
  by rewrite app_nil_r, !Nat.add_0_r.
Qed.

(** ** Calls in sequence *)

(** X6.  The first request after construction is authorised by the token
    obtained at construction: the call sends the parsed document to the
    session built around that token and returns the answer. *)
Theorem first_query_uses_the_construction_token
    n w w1 token qs qp document w2 response :
  get_access_token w = (w1, inr token) ->
  gql qs = inr document ->
  execute (session token) document qp w1 = (w2, inr response) ->
  (new w).2 = Normal tt /\
  query (S n) qs qp (new w).1 =
    (mkState (mkSelf false (Some (session token))) w2
             [SetReauthenticated false; GetAccessToken;
              NewClient (session token);
              Execute (session token) document qp;
              SetReauthenticated false],
     Normal (PyDict response)).
Proof.
  intros Htok Hg He.
  assert (Hnew : new w =
                 (mkState (mkSelf false (Some (session token))) w1
                    [SetReauthenticated false; GetAccessToken;
                     NewClient (session token)],
                  Normal tt)).
  { unfold new, __init__, bind, set_reauthenticated. simpl.
    rewrite initialize_eq. simpl. by rewrite Htok. }
  rewrite Hnew. split; [reflexivity|]. cbn [fst].
  rewrite (query_return n qs qp _
             (mkState (mkSelf false (Some (session token))) w2
                [SetReauthenticated false; GetAccessToken;
                 NewClient (session token);
                 Execute (session token) document qp])
             (PyDict response)).
  - reflexivity.
  - rewrite attempt_eq, Hg. simpl. by rewrite He.
Qed.

(** X7.  The retry is granted anew to every call.  Whatever an earlier
    call did -- it may have used its own retry -- a call whose first
    attempt meets a transport-protocol error fetches a token, and with the
    token obtained builds a session around it and leaves it in place. *)
Theorem retry_is_granted_anew n m qs0 qp0 qs qp s s1 e w2 token :
  let s0 := (query (S (S n)) qs0 qp0 s).1 in
  attempt qs qp s0 = (s1, Raise e) ->
  exn_class e = TransportProtocolError ->
  get_access_token (world s1) = (w2, inr token) ->
  let s' := (query (S (S m)) qs qp s0).1 in
  token_fetches (trace s') = token_fetches (trace s0) + 1 /\
  rebuilds (trace s') = rebuilds (trace s0) ++ [session token] /\
  client (self s') = Some (session token).
Proof.
  intros s0 Ha Hcls Htok s'.
  assert (Hflag : _reauthenticated (self s0) = false).
  { destruct (path_cleaned _ _ _ _ _ (query_paths n qs0 qp0 s))
      as ((x & Hx) & _).
    subst s0. by rewrite Hx. }
  destruct (attempt qs qp
              (mkState (mkSelf true (Some (session token))) w2
                 (trace s1 ++ [GetAccessToken; NewClient (session token);
                               SetReauthenticated true])))
    as [s3 r3] eqn:Hb.
  destruct (retry_once m qs qp s0 s1 e w2 token s3 r3 Hflag Ha Hcls Htok Hb)
    as (Hq & Ht & Hr & _).
  split; [exact Ht|]. split; [exact Hr|].
  subst s'. by rewrite Hq.
Qed.

(** X8.  Between calls the flag is unset and a session is in place, the
    one built last: this holds once construction has succeeded and after
    every call of [query], however it ended.  So no call made by a user of
    a constructed client finds the [client] attribute missing, nor the
    flag set. *)
Theorem in_service_invariant s :
  in_service s ->
  _reauthenticated (self s) = false /\
  is_Some (client (self s)) /\
  client (self s) = last (rebuilds (trace s)).
Proof.
  induction 1 as [w s Hnew|n qs qp s _ (IHf & IHc & IHl)].
  - unfold new, __init__, bind, set_reauthenticated in Hnew.
    simpl in Hnew.
    destruct (initialize_session _ _ _ Hnew)
      as [(e & ? & _)|(token & w2 & _ & _ & Hs & T)]; [discriminate|].
    simpl in Hs, T. rewrite Hs, T. simpl. eauto.
  - split.
    { destruct (path_cleaned _ _ _ _ _ (query_paths n qs qp s))
        as ((x & ->) & _). reflexivity. }
    destruct (path_shape _ _ _ _ _ (query_paths n qs qp s))
      as (a1 & Hreq & Hshape).
    assert (R1 : rebuilds a1 = [])
      by (destruct Hreq as [->|(c & d & -> & _)]; reflexivity).
    destruct Hshape as [(v & _ & Hc & T)|[(e & _ & Hc & T)|[(e & _ & Hc & T)
                       |(token & a3 & lg & Hc & _ & Hreq3 & Hlg & T)]]];
      rewrite Hc, T.
    + split; [exact IHc|]. rewrite !rebuilds_app, R1. simpl.
      by rewrite app_nil_r.
    + split; [exact IHc|]. destruct (error_log_logs e) as (Lr & _).
      rewrite !rebuilds_app, R1, Lr. simpl. by rewrite app_nil_r.
    + split; [exact IHc|]. destruct (credential_log_logs e) as (Lr & _).
      change (GetAccessToken :: credential_log e
                ++ [SetReauthenticated false])
        with ([GetAccessToken] ++ credential_log e
                ++ [@SetReauthenticated DocumentNode false]).
      rewrite !rebuilds_app, R1, Lr. simpl. by rewrite app_nil_r.
    + split; [eauto|].
      assert (R3 : rebuilds a3 = [])
        by (destruct Hreq3 as [->|(d & -> & _)]; reflexivity).
      assert (Rl : rebuilds lg = []).
      { destruct Hlg as [[_ ->]|(e3 & _ & ->)]; [reflexivity|].
        by destruct (error_log_logs e3) as (Lr & _). }
      rewrite !rebuilds_app, R1, R3, Rl. simpl.
      by rewrite last_snoc.
Qed.

(** X9.  Sessions built around different tokens differ -- in their
    [authorization] header -- so a rebuild with a new token does change
    what the transport is given. *)
Theorem sessions_differ_with_their_tokens (t1 t2 : string) :
  t1 <> t2 ->
  session t1 <> session t2 /\
  headers (transport (session t1)) !! "authorization"
    <> headers (transport (session t2)) !! "authorization".
Proof.
  intros Hne.
  assert (Hh : headers (transport (session t1)) !! "authorization"
               <> headers (transport (session t2)) !! "authorization").
  { unfold session. simpl. rewrite !lookup_singleton_eq.
    intros H. apply Hne. by simplify_eq. }
  split; [|exact Hh].
  intros H. apply Hh. by rewrite H.
Qed.

End Properties.

(** * The scenarios, run on the scripted world *)

#[local] Open Scope list_scope.

(** The first request succeeds. *)
Lemma query_returns_the_response_witness :
  Mock.query 1 Mock.robots ∅ (Mock.ready (Mock.mkWorld [] [inr Mock.data])) =
    (mkState (mkSelf false (Some (Mock.session "t0"))) (Mock.mkWorld [] [])
             [Execute (Mock.session "t0") Mock.robots ∅;
              SetReauthenticated false],
     Normal (PyDict Mock.data)).
Proof.
  apply (query_returns_the_response Mock.World string Mock.ROBOT_API_URL
           Mock.get_access_token Mock.gql Mock.execute
           0 Mock.robots ∅ (Mock.ready (Mock.mkWorld [] [inr Mock.data]))
           (Mock.session "t0") Mock.robots (Mock.mkWorld [] []) Mock.data);
    reflexivity.
Defined.

(** The token has expired and the retry is answered: the answer is lost. *)
Lemma retry_result_is_discarded_witness :
  Mock.query 2 Mock.robots ∅ (Mock.ready Mock.expired) =
    (mkState (mkSelf false (Some (Mock.session "t1"))) (Mock.mkWorld [] [])
             [Execute (Mock.session "t0") Mock.robots ∅;
              GetAccessToken;
              NewClient (Mock.session "t1");
              SetReauthenticated true;
              Execute (Mock.session "t1") Mock.robots ∅;
              SetReauthenticated false;
              SetReauthenticated false],
     Normal (PyDict ∅)).
Proof.
  exact (proj2
    (retry_result_is_discarded Mock.World string Mock.ROBOT_API_URL
       Mock.get_access_token Mock.gql Mock.execute
       0 Mock.robots ∅ (Mock.ready Mock.expired)
       (Mock.attempt Mock.robots ∅ (Mock.ready Mock.expired)).1
       Mock.protocol_error
       (Mock.mkWorld [] [inr Mock.data])
       "t1"
       (mkState (mkSelf true (Some (Mock.session "t1"))) (Mock.mkWorld [] [])
          [Execute (Mock.session "t0") Mock.robots ∅;
           GetAccessToken;
           NewClient (Mock.session "t1");
           SetReauthenticated true;
           Execute (Mock.session "t1") Mock.robots ∅])
       (PyDict Mock.data)
       eq_refl eq_refl eq_refl eq_refl eq_refl)).
Defined.

(** The connection is closed: the error is logged and raised, and that is
    all. *)
Lemma other_errors_are_reraised_witness :
  Mock.query 1 Mock.robots ∅ (Mock.ready Mock.hung_up) =
    (mkState (mkSelf false (Some (Mock.session "t0"))) (Mock.mkWorld [] [])
             [Execute (Mock.session "t0") Mock.robots ∅;
              Log ERROR "The connection to the GraphQL endpoint is closed";
              SetReauthenticated false],
     Raise Mock.closed).
Proof.
  exact (proj1
    (other_errors_are_reraised Mock.World string Mock.ROBOT_API_URL
       Mock.get_access_token Mock.gql Mock.execute
       0 Mock.robots ∅ (Mock.ready Mock.hung_up)
       (Mock.attempt Mock.robots ∅ (Mock.ready Mock.hung_up)).1
       Mock.closed eq_refl eq_refl)).
Defined.

(** The token has expired and no other is to be had. *)
Lemma rebuild_failure_propagates_witness :
  (Mock.query 1 Mock.robots ∅ (Mock.ready Mock.locked_out)).2
    = Raise Mock.denied /\
  flag_writes (trace (Mock.query 1 Mock.robots ∅
                        (Mock.ready Mock.locked_out)).1) = [false] /\
  executions (trace (Mock.query 1 Mock.robots ∅
                       (Mock.ready Mock.locked_out)).1)
    = [(Mock.session "t0", Mock.robots, ∅)] /\
  rebuilds (trace (Mock.query 1 Mock.robots ∅
                     (Mock.ready Mock.locked_out)).1) = [].
Proof.
  destruct
    (rebuild_failure_propagates Mock.World string Mock.ROBOT_API_URL
       Mock.get_access_token Mock.gql Mock.execute
       0 Mock.robots ∅ (Mock.ready Mock.locked_out)
       (Mock.attempt Mock.robots ∅ (Mock.ready Mock.locked_out)).1
       Mock.protocol_error (Mock.mkWorld [] [inr Mock.data]) Mock.denied
       eq_refl eq_refl eq_refl eq_refl)
    as (Hq & Hf & He & Hr).
  split; [exact (f_equal snd Hq)|].
  split; [exact Hf|]. split; [exact He|exact Hr].
Defined.

(** No token at construction. *)
Lemma construction_fails_without_token_witness :
  (Mock.new (Mock.mkWorld [inl Mock.denied] [])).2 = Raise Mock.denied /\
  client (self (Mock.new (Mock.mkWorld [inl Mock.denied] [])).1) = None /\
  rebuilds (trace (Mock.new (Mock.mkWorld [inl Mock.denied] [])).1) = [] /\
  token_fetches (trace (Mock.new (Mock.mkWorld [inl Mock.denied] [])).1) = 1.
Proof.
  destruct
    (construction_fails_without_token Mock.World string Mock.ROBOT_API_URL
       Mock.get_access_token
       (Mock.mkWorld [inl Mock.denied] []) (Mock.mkWorld [] []) Mock.denied
       eq_refl)
    as (Hn & H).
  split; [exact (f_equal snd Hn)|exact H].
Defined.

(** A refused credential at construction and a closed connection during a
    query are both in the log when they reach the caller. *)
Lemma failures_are_logged_witness :
  (exists evs lvl msg,
     trace (Mock.new (Mock.mkWorld [inl Mock.denied] [])).1 = [] ++ evs /\
     In (Log lvl msg) evs /\ severe lvl = true /\
     (In (Log lvl msg) (@error_log string Mock.denied)
        \/ In (Log lvl msg) (@credential_log string Mock.denied))) /\
  (exists evs lvl msg,
     trace (Mock.query 2 Mock.robots ∅ (Mock.ready Mock.hung_up)).1
       = [] ++ evs /\
     In (Log lvl msg) evs /\ severe lvl = true /\
     (In (Log lvl msg) (@error_log string Mock.closed)
        \/ In (Log lvl msg) (@credential_log string Mock.closed))).
Proof.
  split.
  - apply (failures_are_logged Mock.World string Mock.ROBOT_API_URL
             Mock.get_access_token Mock.gql Mock.execute
             (mkState (mkSelf false None) (Mock.mkWorld [inl Mock.denied] [])
                      [])
             (Mock.new (Mock.mkWorld [inl Mock.denied] [])).1
             Mock.denied).
    + left. exists (Mock.mkWorld [inl Mock.denied] []).
      split; reflexivity.
    + reflexivity.
  - apply (failures_are_logged Mock.World string Mock.ROBOT_API_URL
             Mock.get_access_token Mock.gql Mock.execute
             (Mock.ready Mock.hung_up)
             (Mock.query 2 Mock.robots ∅ (Mock.ready Mock.hung_up)).1
             Mock.closed).
    + right. exists 0, Mock.robots, ∅. reflexivity.
    + reflexivity.
Defined.

(** An expired token: one rebuild, one retry, on the new session. *)
Lemma one_rebuild_one_retry_witness :
  rebuilds (trace (Mock.query 2 Mock.robots ∅
                     (Mock.ready Mock.expired)).1)
    = [Mock.session "t1"] /\
  executions (trace (Mock.query 2 Mock.robots ∅
                       (Mock.ready Mock.expired)).1)
    = [(Mock.session "t0", Mock.robots, ∅);
       (Mock.session "t1", Mock.robots, ∅)] /\
  token_fetches (trace (Mock.query 2 Mock.robots ∅
                          (Mock.ready Mock.expired)).1) = 1.
Proof.
  destruct
    (proj2 (proj2
       (one_rebuild_one_retry Mock.World string Mock.ROBOT_API_URL
          Mock.get_access_token Mock.gql Mock.execute
          0 Mock.robots ∅ (Mock.ready Mock.expired)))
       (Mock.session "t0") Mock.robots
       (Mock.mkWorld [inr "t1"] [inr Mock.data]) Mock.protocol_error
       (Mock.mkWorld [] [inr Mock.data]) "t1"
       (Mock.mkWorld [] []) (inr Mock.data)
       eq_refl eq_refl eq_refl eq_refl eq_refl eq_refl eq_refl)
    as (_ & Ht & Hr & He).
  split; [exact Hr|]. split; [exact He|exact Ht].
Defined.

(** C3 as stated fails where the credential provider refuses the fresh
    token: the first attempt meets a transport-protocol error, and the
    call builds no session and sends no second request. *)
Lemma no_rebuild_no_retry_counterexample :
  _reauthenticated (self (Mock.ready Mock.locked_out)) = false /\
  (Mock.attempt Mock.robots ∅ (Mock.ready Mock.locked_out)).2
    = Raise Mock.protocol_error /\
  isinstance Mock.protocol_error TransportProtocolError = true /\
  (Mock.query 2 Mock.robots ∅ (Mock.ready Mock.locked_out)).2
    = Raise Mock.denied /\
  rebuilds (trace (Mock.query 2 Mock.robots ∅
                     (Mock.ready Mock.locked_out)).1) = [] /\
  executions (trace (Mock.query 2 Mock.robots ∅
                       (Mock.ready Mock.locked_out)).1)
    = [(Mock.session "t0", Mock.robots, ∅)].
Proof. repeat split. Qed.

(** ** Scenarios beyond the claims *)

(** Construction with a token to be had. *)
Lemma construction_builds_the_session_witness :
  exists c,
    Mock.new (Mock.mkWorld [inr "t0"] []) =
      (mkState (mkSelf false (Some c)) (Mock.mkWorld [] [])
               [SetReauthenticated false; GetAccessToken; NewClient c],
       Normal tt) /\
    url (transport c) = Mock.ROBOT_API_URL /\
    fetch_schema_from_transport c = true /\
    headers (transport c) !! "authorization" = Some "Bearer t0" /\
    (forall k, k <> "authorization" -> headers (transport c) !! k = None).
Proof.
  exact (construction_builds_the_session Mock.World string
           Mock.ROBOT_API_URL Mock.get_access_token
           (Mock.mkWorld [inr "t0"] []) (Mock.mkWorld [] []) "t0" eq_refl).
Defined.

(** The empty query text does not parse. *)
Lemma unparsed_query_is_not_sent_witness :
  (Mock.query 1 "" ∅ (Mock.ready Mock.hung_up)).2
    = Raise (mkExn GraphQLError "Syntax Error: Unexpected <EOF>."
                   "Syntax Error: Unexpected <EOF>." "") /\
  world (Mock.query 1 "" ∅ (Mock.ready Mock.hung_up)).1 = Mock.hung_up /\
  executions (trace (Mock.query 1 "" ∅ (Mock.ready Mock.hung_up)).1) = [].
Proof.
  destruct
    (unparsed_query_is_not_sent Mock.World string Mock.ROBOT_API_URL
       Mock.get_access_token Mock.gql Mock.execute
       0 "" ∅ (Mock.ready Mock.hung_up)
       (mkExn GraphQLError "Syntax Error: Unexpected <EOF>."
              "Syntax Error: Unexpected <EOF>." "")
       eq_refl eq_refl)
    as (Hq & He & _).
  split; [exact (f_equal snd Hq)|].
  split; [exact (f_equal (fun x => world x.1) Hq)|exact He].
Defined.

(** Construction, then a request that is answered. *)
Lemma first_query_uses_the_construction_token_witness :
  Mock.query 1 Mock.robots ∅
    (Mock.new (Mock.mkWorld [inr "t0"] [inr Mock.data])).1 =
    (mkState (mkSelf false (Some (Mock.session "t0"))) (Mock.mkWorld [] [])
             [SetReauthenticated false; GetAccessToken;
              NewClient (Mock.session "t0");
              Execute (Mock.session "t0") Mock.robots ∅;
              SetReauthenticated false],
     Normal (PyDict Mock.data)).
Proof.
  exact (proj2
    (first_query_uses_the_construction_token Mock.World string
       Mock.ROBOT_API_URL Mock.get_access_token Mock.gql Mock.execute
       0 (Mock.mkWorld [inr "t0"] [inr Mock.data])
       (Mock.mkWorld [] [inr Mock.data]) "t0" Mock.robots ∅ Mock.robots
       (Mock.mkWorld [] []) Mock.data eq_refl eq_refl eq_refl)).
Defined.

(** Two calls, the token expired before each: the second call rebuilds
    as the first did. *)
Lemma retry_is_granted_anew_witness :
  rebuilds (trace (Mock.query 2 Mock.robots ∅
                     (Mock.query 2 Mock.robots ∅
                        (Mock.new Mock.short_lived).1).1).1)
    = [Mock.session "t0"; Mock.session "t1"; Mock.session "t2"] /\
  client (self (Mock.query 2 Mock.robots ∅
                  (Mock.query 2 Mock.robots ∅
                     (Mock.new Mock.short_lived).1).1).1)
    = Some (Mock.session "t2").
Proof.
  destruct
    (retry_is_granted_anew Mock.World string Mock.ROBOT_API_URL
       Mock.get_access_token Mock.gql Mock.execute
       0 0 Mock.robots ∅ Mock.robots ∅ (Mock.new Mock.short_lived).1
       (Mock.attempt Mock.robots ∅
          (Mock.query 2 Mock.robots ∅ (Mock.new Mock.short_lived).1).1).1
       Mock.protocol_error
       (Mock.mkWorld [] [inr Mock.data]) "t2"
       eq_refl eq_refl eq_refl)
    as (_ & Hr & Hc).
  split; [exact Hr|exact Hc].
Defined.

(** A constructed client after a call that used its retry. *)
Lemma in_service_invariant_witness :
  _reauthenticated
    (self (Mock.query 2 Mock.robots ∅ (Mock.new Mock.short_lived).1).1)
    = false /\
  is_Some
    (client
       (self (Mock.query 2 Mock.robots ∅ (Mock.new Mock.short_lived).1).1))
  /\
  client (self (Mock.query 2 Mock.robots ∅ (Mock.new Mock.short_lived).1).1)
    = last (rebuilds
              (trace (Mock.query 2 Mock.robots ∅
                        (Mock.new Mock.short_lived).1).1)).
Proof.
  apply (in_service_invariant Mock.World string Mock.ROBOT_API_URL
           Mock.get_access_token Mock.gql Mock.execute).
  apply (queried Mock.World string Mock.ROBOT_API_URL
           Mock.get_access_token Mock.gql Mock.execute 0 Mock.robots ∅).
  apply (constructed Mock.World string Mock.ROBOT_API_URL
           Mock.get_access_token Mock.gql Mock.execute Mock.short_lived).
  reflexivity.
Defined.

(** The old token and the new. *)
Lemma sessions_differ_with_their_tokens_witness :
  Mock.session "t0" <> Mock.session "t1" /\
  headers (transport (Mock.session "t0")) !! "authorization"
    <> headers (transport (Mock.session "t1")) !! "authorization".
Proof.
  apply (sessions_differ_with_their_tokens Mock.ROBOT_API_URL "t0" "t1").
  discriminate.
Defined.
